(** * The Good Fight TTRPG: the recruitment pipeline, dice, deck and
      game-state modules, embedded from the JavaScript sources.

    Numbers are integers ([Z]); arrays are lists; the module-level
    variables of the JavaScript modules ([provider] of Dice and of Deck,
    [gameState] and [activeScreen] of App, the browser's [localStorage])
    are the fields of one record, [World], threaded through every call.
    An [async] function is a function from the world to an [Outcome]:
    its promise resolves, stays pending for ever, or is rejected. *)

From stdpp Require Import gmap strings list pretty.

Open Scope Z_scope.

(* ===================================================================== *)
(** ** Data model *)
(* ===================================================================== *)

(** A card object [{suit, rank, value}]. *)
Record Card := mkCard {
  suit : string;
  rank : string;
  value : Z;
}.

(** Cards are compared field by field. *)
#[global] Instance Card_eq_dec : EqDecision Card.
Proof. solve_decision. Defined.

(** An entry of [initiates] or [detainedOperatives]:
    [{card, turnsRemaining}]. *)
Record Timed := mkTimed {
  card : Card;
  turnsRemaining : Z;
}.

(** An entry of [turnLog]: [{turn, text}]. *)
Record LogEntry := mkLogEntry {
  turn : Z;
  text : string;
}.

(** [inputMode: {dice, cards}]. *)
Record InputMode := mkInputMode {
  dice : string;
  cards : string;
}.

(** An entry of [multiTurnOps]. *)
Record MultiTurnOp := mkMultiTurnOp {
  operationId : string;
  opTurnsRemaining : Z;
  assignedOperatives : list Card;
}.

(** The object built by [GameState.createInitial], field by field. *)
Record State := mkState {
  resistanceValues : list string;
  regimeType : list string;
  inputMode : InputMode;
  influence : Z;
  heat : Z;
  supplies : Z;
  recruitDeck : list Card;
  recruitPool : list Card;
  initiates : list Timed;
  operatives : list Card;
  detainedOperatives : list Timed;
  leaderSkillLevel : Z;
  currentTurn : Z;
  assignments : list string;
  multiTurnOps : list MultiTurnOp;
  availableMidGameOps : list string;
  availableLateGameOps : list string;
  completedLateGameOps : list string;
  turnLog : list LogEntry;
}.

(** Field assignments [state.f = v], one function per assigned field. *)
Definition set_resistanceValues (v : list string) (s : State) : State :=
  let '(mkState _ b c d e f g h i j k l m n o p q r t) := s in
  mkState v b c d e f g h i j k l m n o p q r t.
Definition set_regimeType (v : list string) (s : State) : State :=
  let '(mkState a _ c d e f g h i j k l m n o p q r t) := s in
  mkState a v c d e f g h i j k l m n o p q r t.
Definition set_inputMode (v : InputMode) (s : State) : State :=
  let '(mkState a b _ d e f g h i j k l m n o p q r t) := s in
  mkState a b v d e f g h i j k l m n o p q r t.
Definition set_influence (v : Z) (s : State) : State :=
  let '(mkState a b c _ e f g h i j k l m n o p q r t) := s in
  mkState a b c v e f g h i j k l m n o p q r t.
Definition set_heat (v : Z) (s : State) : State :=
  let '(mkState a b c d _ f g h i j k l m n o p q r t) := s in
  mkState a b c d v f g h i j k l m n o p q r t.
Definition set_supplies (v : Z) (s : State) : State :=
  let '(mkState a b c d e _ g h i j k l m n o p q r t) := s in
  mkState a b c d e v g h i j k l m n o p q r t.
Definition set_recruitDeck (v : list Card) (s : State) : State :=
  let '(mkState a b c d e f _ h i j k l m n o p q r t) := s in
  mkState a b c d e f v h i j k l m n o p q r t.
Definition set_recruitPool (v : list Card) (s : State) : State :=
  let '(mkState a b c d e f g _ i j k l m n o p q r t) := s in
  mkState a b c d e f g v i j k l m n o p q r t.
Definition set_initiates (v : list Timed) (s : State) : State :=
  let '(mkState a b c d e f g h _ j k l m n o p q r t) := s in
  mkState a b c d e f g h v j k l m n o p q r t.
Definition set_operatives (v : list Card) (s : State) : State :=
  let '(mkState a b c d e f g h i _ k l m n o p q r t) := s in
  mkState a b c d e f g h i v k l m n o p q r t.
Definition set_leaderSkillLevel (v : Z) (s : State) : State :=
  let '(mkState a b c d e f g h i j k _ m n o p q r t) := s in
  mkState a b c d e f g h i j k v m n o p q r t.
Definition set_currentTurn (v : Z) (s : State) : State :=
  let '(mkState a b c d e f g h i j k l _ n o p q r t) := s in
  mkState a b c d e f g h i j k l v n o p q r t.
Definition set_turnLog (v : list LogEntry) (s : State) : State :=
  let '(mkState a b c d e f g h i j k l m n o p q r _) := s in
  mkState a b c d e f g h i j k l m n o p q r v.

(** A dice provider, [(dieType) => Promise<number>], installed with
    [Dice.setProvider]. A provider may keep state of its own between
    calls, so its answer is a function of the number of requests it has
    already received and of the die type; [None] is a promise that never
    settles. *)
Definition DiceProvider : Type := nat → string → option Z.

(** A deck provider, [(count) => Promise<Array<card>>], installed with
    [Deck.setProvider]; same conventions. *)
Definition DeckProvider : Type := nat → Z → option (list Card).

(** What the player does with the modals of the physical mode.
    [diceEntries n] are the contents of the number input at the successive
    clicks on Submit in the n-th dice modal, each already read by
    [parseInt(input.value, 10)] ([None] is NaN). [cardPicks n k] is the
    (suit, rank) selected in the k-th picker of the n-th card request. *)
Record Player := mkPlayer {
  diceEntries : nat → list (option Z);
  cardPicks : nat → nat → string * string;
}.

(** The module-level variables of the program and its environment. *)
Record World := mkWorld {
  Dice_provider : option DiceProvider;       (* dice.js: let provider *)
  Deck_provider : option DeckProvider;       (* deck.js: let provider *)
  App_activeScreen : option string;          (* app.js: let activeScreen *)
  App_gameState : option State;              (* app.js: let gameState *)
  localStorage : gmap string State;          (* the JSON text kept per key *)
  player : Player;                           (* the human at the modals *)
  entropy : nat → nat;                       (* the source behind Math.random *)
  randomCalls : nat;                         (* values of it consumed so far *)
  diceRequests : list string;                (* die types asked of Dice.roll, oldest first *)
  cardRequests : list Z;                     (* counts asked of Deck.draw, oldest first *)
}.

Definition set_Dice_provider (v : option DiceProvider) (w : World) : World :=
  let '(mkWorld _ b c d e f g h i j) := w in mkWorld v b c d e f g h i j.
Definition set_Deck_provider (v : option DeckProvider) (w : World) : World :=
  let '(mkWorld a _ c d e f g h i j) := w in mkWorld a v c d e f g h i j.
Definition set_App_activeScreen (v : option string) (w : World) : World :=
  let '(mkWorld a b _ d e f g h i j) := w in mkWorld a b v d e f g h i j.
Definition set_App_gameState (v : option State) (w : World) : World :=
  let '(mkWorld a b c _ e f g h i j) := w in mkWorld a b c v e f g h i j.
Definition set_localStorage (v : gmap string State) (w : World) : World :=
  let '(mkWorld a b c d _ f g h i j) := w in mkWorld a b c d v f g h i j.
Definition set_randomCalls (v : nat) (w : World) : World :=
  let '(mkWorld a b c d e f g _ i j) := w in mkWorld a b c d e f g v i j.
Definition set_diceRequests (v : list string) (w : World) : World :=
  let '(mkWorld a b c d e f g h _ j) := w in mkWorld a b c d e f g h v j.
Definition set_cardRequests (v : list Z) (w : World) : World :=
  let '(mkWorld a b c d e f g h i _) := w in mkWorld a b c d e f g h i v.

(* ===================================================================== *)
(** ** Promises *)
(* ===================================================================== *)

(** The three fates of the promise of an [async] call, each with the world
    as the call leaves it. *)
Inductive Outcome (A : Type) : Type :=
  | Resolved (a : A) (w : World)
  | Pending (w : World)
  | Threw (msg : string) (w : World).
Arguments Resolved {A} a w.
Arguments Pending {A} w.
Arguments Threw {A} msg w.

Definition Async (A : Type) : Type := World → Outcome A.

Definition ret {A} (a : A) : Async A := λ w, Resolved a w.

(** [await]: go on with the value once the promise resolves. *)
Definition bind {A B} (m : Async A) (k : A → Async B) : Async B :=
  λ w, match m w with
       | Resolved a w' => k a w'
       | Pending w' => Pending w'
       | Threw msg w' => Threw msg w'
       end.

Notation "'await!' x ':=' m 'in' k" := (bind m (λ x, k))
  (at level 10, x name, m at level 100, k at level 200).
Notation "'exec!' m 'in' k" := (bind m (λ _, k))
  (at level 10, m at level 100, k at level 200).

Definition outcome_world {A} (o : Outcome A) : World :=
  match o with
  | Resolved _ w => w
  | Pending w => w
  | Threw _ w => w
  end.

(** Read and write the world inside a computation. *)
Definition get_world : Async World := λ w, Resolved w w.
Definition modify_world (f : World → World) : Async unit := λ w, Resolved tt (f w).
Definition throw {A} (msg : string) : Async A := λ w, Threw msg w.

(* ===================================================================== *)
(** ** JavaScript built-ins used by the sources *)
(* ===================================================================== *)

Module JS.

(** [arr[i]] for an integer [i]: [undefined] ([None]) outside the array. *)
Definition array_get {A} (arr : list A) (i : Z) : option A :=
  if decide (0 ≤ i) then arr !! Z.to_nat i else None.

(** [arr.splice(start, deleteCount)] for integer arguments: the removed
    elements and the array as it is left. A negative [start] counts from
    the end; both arguments are clamped to the array. *)
Definition splice {A} (arr : list A) (start deleteCount : Z) : list A * list A :=
  let len := Z.of_nat (length arr) in
  let actualStart :=
    if decide (start < 0) then Z.max (len + start) 0 else Z.min start len in
  let actualDeleteCount := Z.min (Z.max deleteCount 0) (len - actualStart) in
  let s := Z.to_nat actualStart in
  let d := Z.to_nat actualDeleteCount in
  (take d (drop s arr), take s arr ++ drop (s + d) arr).

(** [Math.floor(Math.random() * n)] for a positive integer [n]: an integer
    of [0, n), taken from the entropy source. *)
Definition Math_floor_random_times (n : nat) : Async nat :=
  λ w, Resolved (entropy w (randomCalls w) `mod` n)%nat
                (set_randomCalls (S (randomCalls w)) w).

(** The property names every object literal inherits from
    [Object.prototype]. Looked up in an object literal such as [DIE_MAX] or
    [VALUE_MAP], such a name finds the inherited function or object, which is
    neither [undefined] nor a number. *)
Definition Object_prototype_names : list string :=
  ["constructor"; "hasOwnProperty"; "isPrototypeOf"; "propertyIsEnumerable";
   "toLocaleString"; "toString"; "valueOf"; "__proto__";
   "__defineGetter__"; "__defineSetter__"; "__lookupGetter__"; "__lookupSetter__"].

(** [Math.max(x, ...xs)]: the greatest of one or more integers. *)
Definition Math_max (x : Z) (xs : list Z) : Z := foldl Z.max x xs.

End JS.

(* ===================================================================== *)
(** ** deck.js *)
(* ===================================================================== *)

Module Deck.

Definition SUITS : list string := ["hearts"; "diamonds"; "clubs"; "spades"].

Definition RANKS : list string :=
  ["2"; "3"; "4"; "5"; "6"; "7"; "8"; "9"; "10"; "J"; "Q"; "K"; "A"].

Definition VALUE_MAP : gmap string Z :=
  list_to_map
    [("2", 2); ("3", 3); ("4", 4); ("5", 5); ("6", 6); ("7", 7);
     ("8", 8); ("9", 9); ("10", 10); ("J", 11); ("Q", 12); ("K", 13); ("A", 15)].

Definition setProvider (fn : option DeckProvider) : Async unit :=
  modify_world (set_Deck_provider fn).

(** [VALUE_MAP[rank]] where a number is expected. Every rank the sources
    pass is a key of the map ([RANKS_valued] below); 0 stands for the
    [undefined] of the other strings. *)
Definition value_of (rank : string) : Z := default 0 (VALUE_MAP !! rank).

(** The nested [for ... of] loops over [SUITS] and [RANKS]. *)
Definition createDeck : list Card :=
  s ← SUITS; r ← RANKS; [mkCard s r (value_of r)].

(** [[deck[i], deck[j]] = [deck[j], deck[i]]]; both indices are inside the
    array wherever [shuffle] swaps. *)
Definition swap (deck : list Card) (i j : nat) : list Card :=
  match deck !! j, deck !! i with
  | Some a, Some b => <[j:=b]> (<[i:=a]> deck)
  | _, _ => deck
  end.

(** The loop [for (let i = deck.length - 1; i > 0; i--)], from index [i]
    downwards. *)
Fixpoint shuffle_from (i : nat) (deck : list Card) : Async (list Card) :=
  match i with
  | O => ret deck
  | S i' =>
      await! j := JS.Math_floor_random_times (i + 1) in
      shuffle_from i' (swap deck i j)
  end.

(** Fisher-Yates, in place: the array as the call leaves it. *)
Definition shuffle (deck : list Card) : Async (list Card) :=
  shuffle_from (length deck - 1) deck.

(** The drawn cards and the deck as the call leaves it. *)
Definition digitalDraw (deck : list Card) (count : Z) : list Card * list Card :=
  let actual := Z.min count (Z.of_nat (length deck)) in
  JS.splice deck 0 actual.

(** With a provider the deck is not touched. *)
Definition draw (deck : list Card) (count : Z) : Async (list Card * list Card) :=
  λ w,
    match Deck_provider w with
    | Some provider =>
        let w' := set_cardRequests (cardRequests w ++ [count]) w in
        match provider (length (cardRequests w)) count with
        | Some drawn => Resolved (drawn, deck) w'
        | None => Pending w'
        end
    | None =>
        Resolved (digitalDraw deck count)
                 (set_cardRequests (cardRequests w ++ [count]) w)
    end.

Definition returnCards (deck cards : list Card) : Async (list Card) :=
  shuffle (deck ++ cards).

Definition cardValue (rank : string) : option Z := VALUE_MAP !! rank.

End Deck.

(* ===================================================================== *)
(** ** dice.js *)
(* ===================================================================== *)

Module Dice.

Definition DIE_MAX : gmap string Z :=
  list_to_map
    [("d4", 4); ("d6", 6); ("d8", 8); ("d10", 10); ("d12", 12);
     ("d20", 20); ("d100", 100)].

Definition setProvider (fn : option DiceProvider) : Async unit :=
  modify_world (set_Dice_provider fn).

(** [digitalRoll]. The map gives [DIE_MAX[dieType]] for the die types that
    are not names of [JS.Object_prototype_names]; for those names the
    JavaScript lookup finds an inherited function, nothing is thrown and the
    result is not a number, which the integer result of the embedding does
    not cover. *)
Definition digitalRoll (dieType : string) : Async Z :=
  match DIE_MAX !! dieType with
  | None => throw ("Unknown die type: " +:+ dieType)
  | Some max =>
      if decide (max = 0) then throw ("Unknown die type: " +:+ dieType)
      else
        await! r := JS.Math_floor_random_times (Z.to_nat max) in
        ret (Z.of_nat r + 1)
  end.

(** [roll] hands the request to the provider when there is one and
    returns what the provider returns. *)
Definition roll (dieType : string) : Async Z :=
  λ w,
    let w' := set_diceRequests (diceRequests w ++ [dieType]) w in
    match Dice_provider w with
    | Some provider =>
        match provider (length (diceRequests w)) dieType with
        | Some v => Resolved v w'
        | None => Pending w'
        end
    | None => digitalRoll dieType w'
    end.

Definition getDieMax (dieType : string) : option Z := DIE_MAX !! dieType.

End Dice.

(* ===================================================================== *)
(** ** ui.js *)
(* ===================================================================== *)

Module UI.

(** The click listener of the Submit button of the dice modal:
    [if (isNaN(value) || value < 1 || value > max) return;] and otherwise
    [resolve(value)]. [None] as result: the listener returned and the modal
    stays open. A comparison with an [undefined] max is false. *)
Definition submit (max : option Z) (value : option Z) : option Z :=
  match value with
  | None => None
  | Some v =>
      if decide (v < 1) then None
      else match max with
           | Some m => if decide (v > m) then None else Some v
           | None => Some v
           end
  end.

(** The promise of one dice modal, given the entries of the successive
    clicks: it resolves with the first entry the listener lets through. *)
Fixpoint resolve_first (max : option Z) (entries : list (option Z)) : option Z :=
  match entries with
  | [] => None
  | e :: rest =>
      match submit max e with
      | Some v => Some v
      | None => resolve_first max rest
      end
  end.

Definition diceInput (entries : list (option Z)) (dieType : string) : option Z :=
  let max := Dice.getDieMax dieType in
  resolve_first max entries.

(** [pickOneCard]: the card of the selected suit and rank. *)
Definition pickOneCard (pick : string * string) : Card :=
  let '(suit, rank) := pick in
  mkCard suit rank (Deck.value_of rank).

(** The loop [for (let i = 0; i < count; i++)] of [cardInput]. *)
Definition cardInput (picks : nat → string * string) (count : Z) : list Card :=
  (λ i, pickOneCard (picks i)) <$> seq 0 (Z.to_nat count).

(** [UI.diceInput] and [UI.cardInput] as providers, for a given player. The
    card provider is the one of a player who submits every picker of the
    request; a picker left open is not covered. *)
Definition diceInput_provider (pl : Player) : DiceProvider :=
  λ n dieType, diceInput (diceEntries pl n) dieType.

Definition cardInput_provider (pl : Player) : DeckProvider :=
  λ n count, Some (cardInput (cardPicks pl n) count).

End UI.

(* ===================================================================== *)
(** ** state.js *)
(* ===================================================================== *)

Module GameState.

Definition STORAGE_PREFIX : string := "good-fight-save-".

Definition createInitial : State :=
  {| resistanceValues := [];
     regimeType := [];
     inputMode := {| dice := "digital"; cards := "digital" |};
     influence := 0;
     heat := 0;
     supplies := 0;
     recruitDeck := [];
     recruitPool := [];
     initiates := [];
     operatives := [];
     detainedOperatives := [];
     leaderSkillLevel := 0;
     currentTurn := 1;
     assignments := [];
     multiTurnOps := [];
     availableMidGameOps := [];
     availableLateGameOps := [];
     completedLateGameOps := [];
     turnLog := [] |}.

Definition clamp (value min max : Z) : Z := Z.max min (Z.min max value).

Definition setInfluence (state : State) (value : Z) : State :=
  set_influence (clamp value 0 500) state.

Definition setHeat (state : State) (value : Z) : State :=
  set_heat (clamp value 0 100) state.

Definition setSupplies (state : State) (value : Z) : State :=
  set_supplies (Z.max 0 value) state.

Definition addInfluence (state : State) (delta : Z) : State :=
  setInfluence state (influence state + delta).

Definition addHeat (state : State) (delta : Z) : State :=
  setHeat state (heat state + delta).

Definition addSupplies (state : State) (delta : Z) : State :=
  setSupplies state (supplies state + delta).

(** [localStorage.setItem(key, JSON.stringify(state))]: the slot keeps the
    state as it is at the call. *)
Definition save (state : State) (slotName : string) : Async unit :=
  let key := STORAGE_PREFIX +:+ slotName in
  modify_world (λ w, set_localStorage (<[key:=state]> (localStorage w)) w).

Definition load (slotName : string) : Async (option State) :=
  let key := STORAGE_PREFIX +:+ slotName in
  λ w, Resolved (localStorage w !! key) w.

Definition deleteSave (slotName : string) : Async unit :=
  let key := STORAGE_PREFIX +:+ slotName in
  modify_world (λ w, set_localStorage (delete key (localStorage w)) w).

End GameState.

(* ===================================================================== *)
(** ** app.js *)
(* ===================================================================== *)

Module App.

(** What a call of [attemptRecruit] did. The JavaScript function returns
    nothing; the embedding returns which of its paths was taken, and on
    the rolling path the value of its local [success]. *)
Inductive Attempt :=
  | NoTarget                   (* one of the two first [return]s *)
  | NoRecruiter                (* the "No operatives available" [return] *)
  | Rolled (success : bool).   (* the dice were rolled *)

(** The DOM is not part of the world: [showScreen] only keeps the name. *)
Definition showScreen (name : string) : Async unit :=
  modify_world (set_App_activeScreen (Some name)).

Definition getState : Async (option State) :=
  λ w, Resolved (App_gameState w) w.

(** [gameState.f] and [gameState.f = v] past the null checks: reading a
    property of [null] throws. *)
Definition the_state : Async State :=
  λ w, match App_gameState w with
       | Some gs => Resolved gs w
       | None => Threw "TypeError: gameState is null" w
       end.

Definition modify_state (f : State → State) : Async unit :=
  await! gs := the_state in
  modify_world (set_App_gameState (Some (f gs))).

Fixpoint for_each {A} (l : list A) (body : A → Async unit) : Async unit :=
  match l with
  | [] => ret tt
  | x :: rest => exec! body x in for_each rest body
  end.

Definition syncInputProviders : Async unit :=
  await! g := getState in
  match g with
  | None => ret tt
  | Some gs =>
      await! w := get_world in
      exec! (if decide (dice (inputMode gs) = "physical")
             then Dice.setProvider (Some (UI.diceInput_provider (player w)))
             else Dice.setProvider None) in
      if decide (cards (inputMode gs) = "physical")
      then Deck.setProvider (Some (UI.cardInput_provider (player w)))
      else Deck.setProvider None
  end.

(** [beginGame]. What it reads from the page is passed in: the two results
    of [getSetupSelections], and the values of the two input-mode selects
    ([None] when the element is missing). *)
Definition beginGame (resistance regime : list string)
    (diceSelect cardsSelect : option string) : Async unit :=
  let state := GameState.createInitial in
  let state := set_resistanceValues resistance state in
  let state := set_regimeType regime state in
  let state :=
    match diceSelect with
    | Some v => set_inputMode {| dice := v; cards := cards (inputMode state) |} state
    | None => state
    end in
  let state :=
    match cardsSelect with
    | Some v => set_inputMode {| dice := dice (inputMode state); cards := v |} state
    | None => state
    end in
  await! deck := Deck.shuffle Deck.createDeck in
  let state := set_recruitDeck deck state in
  let state := set_influence 0 state in
  let state := set_heat 0 state in
  let state := set_supplies 0 state in
  let state := set_currentTurn 1 state in
  exec! modify_world (set_App_gameState (Some state)) in
  exec! syncInputProviders in
  exec! GameState.save state "current" in
  showScreen "game".

Definition continueGame : Async unit :=
  await! loaded := GameState.load "current" in
  match loaded with
  | None => ret tt
  | Some state =>
      exec! modify_world (set_App_gameState (Some state)) in
      exec! syncInputProviders in
      showScreen "game"
  end.

Definition getInfluenceDie (influence : Z) : option string :=
  if decide (influence >= 300) then Some "d20"
  else if decide (influence >= 250) then Some "d12"
  else if decide (influence >= 200) then Some "d10"
  else if decide (influence >= 150) then Some "d8"
  else if decide (influence >= 100) then Some "d6"
  else if decide (influence >= 50) then Some "d4"
  else None.

Definition suitSymbol (suit : string) : string :=
  let icons : gmap string string :=
    list_to_map [("hearts", "♥"); ("diamonds", "♦"); ("clubs", "♣"); ("spades", "♠")] in
  default "" (icons !! suit).

Definition addLogEntry (text : string) : Async unit :=
  await! g := getState in
  match g with
  | None => ret tt
  | Some gs =>
      modify_world (set_App_gameState
        (Some (set_turnLog (turnLog gs ++ [mkLogEntry (currentTurn gs) text]) gs)))
  end.

Definition attemptRecruit (poolIndex : Z) : Async Attempt :=
  await! g := getState in
  match g with
  | None => ret NoTarget
  | Some gs =>
      match JS.array_get (recruitPool gs) poolIndex with
      | None => ret NoTarget
      | Some card =>
          if decide (length (operatives gs) = 0%nat ∧ leaderSkillLevel gs = 0) then
            exec! addLogEntry "No operatives available to attempt recruitment." in
            ret NoRecruiter
          else
            await! baseRoll := Dice.roll "d10" in
            let total := baseRoll in
            let rollBreakdown := "d10: " +:+ pretty baseRoll in
            await! gs1 := the_state in
            let bonusDie := getInfluenceDie (influence gs1) in
            await! rolled :=
              match bonusDie with
              | Some die =>
                  await! bonusRoll := Dice.roll die in
                  ret (total + bonusRoll,
                       rollBreakdown +:+ " + " +:+ die +:+ ": " +:+ pretty bonusRoll)
              | None => ret (total, rollBreakdown)
              end in
            let '(total, rollBreakdown) := rolled in
            await! gs2 := the_state in
            let operativeValue := leaderSkillLevel gs2 in
            let total := total + operativeValue in
            let rollBreakdown :=
              rollBreakdown +:+ " + leader(" +:+ pretty operativeValue +:+ ")" in
            let target := value card in
            let success := bool_decide (total >= target) in
            exec! (if success then
                     exec! modify_state (λ s,
                       set_recruitPool (JS.splice (recruitPool s) poolIndex 1).2 s) in
                     exec! modify_state (λ s,
                       set_initiates (initiates s ++ [mkTimed card 2]) s) in
                     addLogEntry ("Recruit success! " +:+ rank card +:+ suitSymbol (suit card)
                       +:+ " (" +:+ rollBreakdown +:+ " = " +:+ pretty total +:+ " vs "
                       +:+ pretty target +:+ ") → Initiate (2 turns)")
                   else
                     addLogEntry ("Recruit failed. " +:+ rank card +:+ suitSymbol (suit card)
                       +:+ " (" +:+ rollBreakdown +:+ " = " +:+ pretty total +:+ " vs "
                       +:+ pretty target +:+ ") — stays in pool.")) in
            await! gs3 := the_state in
            exec! GameState.save gs3 "current" in
            ret (Rolled success)
      end
  end.

Definition drawToPool (count : Z) : Async unit :=
  await! g := getState in
  match g with
  | None => ret tt
  | Some gs =>
      await! res := Deck.draw (recruitDeck gs) count in
      let '(drawn, deck) := res in
      exec! modify_state (set_recruitDeck deck) in
      exec! modify_state (λ s, set_recruitPool (recruitPool s ++ drawn) s) in
      exec! for_each drawn (λ card,
        addLogEntry ("Drew " +:+ rank card +:+ suitSymbol (suit card) +:+ " (value "
                     +:+ pretty (value card) +:+ ") to recruit pool.")) in
      await! gs' := the_state in
      GameState.save gs' "current"
  end.

(** [updateLeaderSkill]: 0 without operatives, else
    [Math.max(...operatives.map(op => op.value))]. *)
Definition updateLeaderSkill : Async unit :=
  await! g := getState in
  match g with
  | None => ret tt
  | Some gs =>
      match operatives gs with
      | [] => modify_state (set_leaderSkillLevel 0)
      | op :: ops =>
          modify_state (set_leaderSkillLevel
            (JS.Math_max (value op) (value <$> ops)))
      end
  end.

End App.

(* ===================================================================== *)
(** ** Worlds and states of the tests *)
(* ===================================================================== *)

(** A player who never touches a modal. *)
Definition idle_player : Player :=
  {| diceEntries := λ _, []; cardPicks := λ _ _, ("hearts", "2") |}.

(** The world before any game: no provider, nothing stored. *)
Definition fresh_world : World :=
  {| Dice_provider := None;
     Deck_provider := None;
     App_activeScreen := None;
     App_gameState := None;
     localStorage := ∅;
     player := idle_player;
     entropy := λ n, (7 * n + 3)%nat;
     randomCalls := 0;
     diceRequests := [];
     cardRequests := [] |}.

(** [Dice.setProvider(() => Promise.resolve(v))]. *)
Definition always (v : Z) : DiceProvider := λ _ _, Some v.

(** A provider that delivers the values of a sequence, one per request. *)
Definition scripted (vs : list Z) : DiceProvider := λ n _, vs !! n.

(** The game of a test: the given state, and the given dice provider. *)
Definition test_world (gs : State) (p : DiceProvider) : World :=
  set_Dice_provider (Some p) (set_App_gameState (Some gs) fresh_world).

(** The cards of the tests of the recruitment pipeline. *)
Definition three_of_clubs : Card := mkCard "clubs" "3" 3.
Definition four_of_hearts : Card := mkCard "hearts" "4" 4.
Definition five_of_hearts : Card := mkCard "hearts" "5" 5.
Definition five_of_spades : Card := mkCard "spades" "5" 5.
Definition eight_of_spades : Card := mkCard "spades" "8" 8.
Definition ten_of_clubs : Card := mkCard "clubs" "10" 10.
Definition ace_of_diamonds : Card := mkCard "diamonds" "A" 15.

(** The state a test of the pipeline sets up: a fresh state with a full
    deck, then the leader skill, the pool and the operatives of the test. *)
Definition game_of_test (leaderSkill : Z) (pool ops : list Card) : State :=
  set_operatives ops
    (set_recruitPool pool
      (set_leaderSkillLevel leaderSkill
        (set_recruitDeck Deck.createDeck GameState.createInitial))).

(** The four games of the tests of [attemptRecruit], each with the dice
    the test supplies. *)
Definition success_game : State := game_of_test 5 [three_of_clubs] [five_of_hearts].
Definition success_world : World := test_world success_game (scripted [7]).

Definition failure_game : State := game_of_test 5 [ace_of_diamonds] [five_of_spades].
Definition failure_world : World := test_world failure_game (scripted [2]).

Definition leader_only_game : State := game_of_test 0 [four_of_hearts] [].
Definition leader_only_world : World := test_world leader_only_game (always 10).

Definition skilled_game : State := game_of_test 10 [eight_of_spades] [ten_of_clubs].
Definition skilled_world : World := test_world skilled_game (scripted [5]).

(** The last game again, with one supply in stock. *)
Definition supplied_world : World :=
  test_world (set_supplies 1 skilled_game) (scripted [5]).

(** Physical dice: a player who types 9, then nothing, then 0, then 4 into
    every dice modal, and the world with [UI.diceInput] as provider. *)
Definition typing_player : Player :=
  {| diceEntries := λ _, [Some 9; None; Some 0; Some 4];
     cardPicks := λ _ _, ("hearts", "2") |}.

Definition physical_world : World :=
  set_Dice_provider (Some (UI.diceInput_provider typing_player)) fresh_world.

(** The failing test's game with 120 influence, and the rolls 6 and 5. *)
Definition influential_world : World :=
  test_world (set_influence 120 failure_game) (scripted [6; 5]).

(** The successful test's game with the dice modal as provider and a
    player who never answers. *)
Definition waiting_world : World :=
  test_world success_game (UI.diceInput_provider idle_player).

(** The successful test's game without any provider. *)
Definition digital_world : World :=
  set_App_gameState (Some success_game) fresh_world.

(** The operatives of the leader-skill test: a 5, a king and an 8. *)
Definition three_operatives_world : World :=
  test_world (game_of_test 0 [] [five_of_hearts; mkCard "spades" "K" 13;
                                 mkCard "diamonds" "8" 8]) (always 1).

(** The successful test's game with the card picker as deck provider. *)
Definition physical_cards_world : World :=
  set_Deck_provider (Some (UI.cardInput_provider idle_player)) success_world.

(** A game begun in digital mode, three cards drawn, one attempt made. *)
Definition played_world : World :=
  outcome_world (App.attemptRecruit 1
    (outcome_world (App.drawToPool 3
      (outcome_world (App.beginGame [] [] None None fresh_world))))).

(** The total the card-conservation property speaks of. *)
Definition card_count (gs : State) : nat :=
  (length (recruitDeck gs) + length (recruitPool gs) + length (initiates gs)
   + length (operatives gs) + length (detainedOperatives gs))%nat.

(** The state after one more log entry. *)
Definition logged (e : LogEntry) (gs : State) : State :=
  set_turnLog (turnLog gs ++ [e]) gs.

(** The state after the card at [poolIndex] of the pool has become an
    initiate with two turns to wait. *)
Definition recruited (poolIndex : Z) (c : Card) (gs : State) : State :=
  set_initiates (initiates gs ++ [mkTimed c 2])
    (set_recruitPool (delete (Z.to_nat poolIndex) (recruitPool gs)) gs).

(** The slot [GameState.save(state, 'current')] writes. *)
Definition current_slot : string := "good-fight-save-current".

(** Every card in play, collection after collection. *)
Definition all_cards (gs : State) : list Card :=
  recruitDeck gs ++ recruitPool gs ++ (card <$> initiates gs) ++ operatives gs
    ++ (card <$> detainedOperatives gs).

(** The maximum of the bonus die an influence earns, 0 without one. *)
Definition bonus_die_max (influence : Z) : Z :=
  match App.getInfluenceDie influence with
  | Some die => default 0 (Dice.DIE_MAX !! die)
  | None => 0
  end.

(** An entry the dice modal does not let through, for a die of maximum
    [max]: not a number, below 1, or above [max]. *)
Definition rejected_entry (max : Z) (e : option Z) : Prop :=
  match e with
  | None => True
  | Some x => x < 1 ∨ x > max
  end.

(** The state [beginGame] builds, given the selections read from the page
    and the deck as shuffled. *)
Definition begun_state (resistance regime : list string)
    (diceSelect cardsSelect : option string) (deck : list Card) : State :=
  {| resistanceValues := resistance;
     regimeType := regime;
     inputMode := {| dice := default "digital" diceSelect;
                     cards := default "digital" cardsSelect |};
     influence := 0;
     heat := 0;
     supplies := 0;
     recruitDeck := deck;
     recruitPool := [];
     initiates := [];
     operatives := [];
     detainedOperatives := [];
     leaderSkillLevel := 0;
     currentTurn := 1;
     assignments := [];
     multiTurnOps := [];
     availableMidGameOps := [];
     availableLateGameOps := [];
     completedLateGameOps := [];
     turnLog := [] |}.

(** The providers an input mode calls for. *)
Definition dice_provider_for (mode : string) (pl : Player) : option DiceProvider :=
  if decide (mode = "physical") then Some (UI.diceInput_provider pl) else None.

Definition deck_provider_for (mode : string) (pl : Player) : option DeckProvider :=
  if decide (mode = "physical") then Some (UI.cardInput_provider pl) else None.

(** The world [beginGame] leaves, given the world it starts from. *)
Definition begun_world (w0 : World) (resistance regime : list string)
    (diceSelect cardsSelect : option string) (deck : list Card) : World :=
  {| Dice_provider := dice_provider_for (default "digital" diceSelect) (player w0);
     Deck_provider := deck_provider_for (default "digital" cardsSelect) (player w0);
     App_activeScreen := Some "game";
     App_gameState := Some (begun_state resistance regime diceSelect cardsSelect deck);
     localStorage :=
       <[current_slot := begun_state resistance regime diceSelect cardsSelect deck]>
         (localStorage w0);
     player := player w0;
     entropy := entropy w0;
     randomCalls := (randomCalls w0 + 51)%nat;
     diceRequests := diceRequests w0;
     cardRequests := cardRequests w0 |}.

(** The worlds a game in digital card mode goes through: [beginGame] with
    the card select not on "physical", then any calls of [drawToPool] and
    [attemptRecruit], each taken with the world it leaves, whatever became
    of its promise. *)
Inductive reachable : World → Prop :=
  | reach_begin w0 resistance regime diceSelect cardsSelect :
      cardsSelect ≠ Some "physical" →
      reachable (outcome_world
        (App.beginGame resistance regime diceSelect cardsSelect w0))
  | reach_draw w count :
      reachable w → reachable (outcome_world (App.drawToPool count w))
  | reach_recruit w poolIndex :
      reachable w → reachable (outcome_world (App.attemptRecruit poolIndex w)).

(** The worlds a game goes through whatever its input modes: [beginGame],
    then any calls of [drawToPool] and [attemptRecruit], each taken with the
    world it leaves. *)
Inductive in_play : World → Prop :=
  | play_begin w0 resistance regime diceSelect cardsSelect :
      in_play (outcome_world
        (App.beginGame resistance regime diceSelect cardsSelect w0))
  | play_draw w count :
      in_play w → in_play (outcome_world (App.drawToPool count w))
  | play_recruit w poolIndex :
      in_play w → in_play (outcome_world (App.attemptRecruit poolIndex w)).

(** A game begun with physical dice and cards, three cards picked, one
    attempt made. *)
Definition played_physical_world : World :=
  outcome_world (App.attemptRecruit 1
    (outcome_world (App.drawToPool 3
      (outcome_world
         (App.beginGame [] [] (Some "physical") (Some "physical") fresh_world))))).

(** What a call may change besides the game state, the store, the count
    of random values and the list of dice requests: nothing. *)
Definition same_setup (w w' : World) : Prop :=
  Dice_provider w' = Dice_provider w ∧
  Deck_provider w' = Deck_provider w ∧
  App_activeScreen w' = App_activeScreen w ∧
  player w' = player w ∧
  entropy w' = entropy w ∧
  cardRequests w' = cardRequests w.

(* ===================================================================== *)
(** ** Arrays *)
(* ===================================================================== *)

Section Arrays.
Context {A : Type}.
Implicit Types (arr : list A) (i : Z).

(** [arr[i]] is an element exactly at the indices of the array. *)
Lemma array_get_Some arr i x :
  JS.array_get arr i = Some x ↔ 0 ≤ i ∧ arr !! Z.to_nat i = Some x.
Proof.
  unfold JS.array_get. case_decide as Hi; split.
  - by intros Hx.
  - by intros [_ Hx].
  - discriminate.
  - intros [Hge _]. lia.
Qed.

(** [arr[i]] is [undefined] exactly outside of them. *)
Lemma array_get_None arr i :
  JS.array_get arr i = None ↔ i < 0 ∨ Z.of_nat (length arr) ≤ i.
Proof.
  unfold JS.array_get. case_decide.
  - rewrite lookup_ge_None. lia.
  - split; [lia | done].
Qed.

(** [splice(0, n)] takes the first [n] elements, all of them when [n] is
    too large and none when it is negative. *)
Lemma splice_front arr n :
  JS.splice arr 0 n = (take (Z.to_nat n) arr, drop (Z.to_nat n) arr).
Proof.
  unfold JS.splice. rewrite decide_False by lia.
  replace (Z.to_nat (Z.min 0 (Z.of_nat (length arr)))) with 0%nat by lia.
  rewrite drop_0, take_0. cbn [app Nat.add].
  destruct (decide (Z.to_nat n ≤ length arr)%nat) as [Hle|Hgt].
  - by replace (Z.to_nat (Z.min (Z.max n 0) (Z.of_nat (length arr) - Z.min 0 (Z.of_nat (length arr)))))
      with (Z.to_nat n) by lia.
  - replace (Z.to_nat (Z.min (Z.max n 0) (Z.of_nat (length arr) - Z.min 0 (Z.of_nat (length arr)))))
      with (length arr) by lia.
    rewrite !take_ge, !drop_ge by lia. done.
Qed.

(** [splice(i, 1)] at an index of the array removes that element. *)
Lemma splice_one arr i x :
  JS.array_get arr i = Some x →
  JS.splice arr i 1 = ([x], delete (Z.to_nat i) arr).
Proof.
  intros [Hi Hx]%array_get_Some.
  pose proof (lookup_lt_Some _ _ _ Hx) as Hlt.
  unfold JS.splice. rewrite decide_False by lia.
  replace (Z.to_nat (Z.min i (Z.of_nat (length arr)))) with (Z.to_nat i) by lia.
  replace (Z.to_nat (Z.min (Z.max 1 0) (Z.of_nat (length arr) - Z.min i (Z.of_nat (length arr)))))
    with 1%nat by lia.
  rewrite delete_take_drop. f_equal.
  - rewrite (drop_S _ _ _ Hx). done.
  - f_equal. f_equal. lia.
Qed.
End Arrays.

(* ===================================================================== *)
(** ** The deck *)
(* ===================================================================== *)

(** The fresh deck has 52 cards. *)
Lemma createDeck_length : length Deck.createDeck = 52%nat.
Proof. reflexivity. Qed.

(** Every rank of [RANKS] has a value in [VALUE_MAP]. *)
Lemma RANKS_valued : Forall (λ r, is_Some (Deck.VALUE_MAP !! r)) Deck.RANKS.
Proof. repeat constructor; by eexists. Qed.

(** A swap keeps the length. *)
Lemma swap_length deck i j : length (Deck.swap deck i j) = length deck.
Proof.
  unfold Deck.swap. destruct (deck !! j), (deck !! i); try done.
  by rewrite !length_insert.
Qed.

(** Only the last count of consumed random values matters. *)
Lemma set_randomCalls_twice n m w :
  set_randomCalls n (set_randomCalls m w) = set_randomCalls n w.
Proof. by destruct w. Qed.

(** Writing back the count a world has changes nothing. *)
Lemma set_randomCalls_same w : set_randomCalls (randomCalls w) w = w.
Proof. by destruct w. Qed.

(** The shuffle always returns, keeps the length, and takes from the world
    only random values. *)
Lemma shuffle_from_spec i : ∀ deck w,
  ∃ deck' n,
    Deck.shuffle_from i deck w = Resolved deck' (set_randomCalls n w) ∧
    length deck' = length deck.
Proof.
  induction i as [|i IH]; intros deck w.
  - exists deck, (randomCalls w). by rewrite set_randomCalls_same.
  - cbn [Deck.shuffle_from]. unfold bind, JS.Math_floor_random_times.
    set (j := (entropy w (randomCalls w) `mod` (S i + 1))%nat).
    destruct (IH (Deck.swap deck (S i) j) (set_randomCalls (S (randomCalls w)) w))
      as (deck' & n & Hrun & Hlen).
    exists deck', n. rewrite Hrun, set_randomCalls_twice, Hlen.
    by rewrite swap_length.
Qed.

(** The same for the whole shuffle. *)
Lemma shuffle_spec deck w :
  ∃ deck' n,
    Deck.shuffle deck w = Resolved deck' (set_randomCalls n w) ∧
    length deck' = length deck.
Proof. apply shuffle_from_spec. Qed.

(** A digital draw of a count that is not negative. *)
Lemma digitalDraw_take_drop deck (count : nat) :
  Deck.digitalDraw deck (Z.of_nat count) =
    (take (count `min` length deck) deck, drop (count `min` length deck) deck).
Proof.
  unfold Deck.digitalDraw. rewrite splice_front.
  by replace (Z.to_nat (Z.min (Z.of_nat count) (Z.of_nat (length deck))))
    with (count `min` length deck)%nat by lia.
Qed.

(** A digital draw of any integer count loses no card. *)
Lemma digitalDraw_conserves deck count :
  (length (Deck.digitalDraw deck count).1 + length (Deck.digitalDraw deck count).2
   = length deck)%nat.
Proof.
  unfold Deck.digitalDraw. rewrite splice_front. cbn [fst snd].
  rewrite length_take, length_drop. lia.
Qed.

(* ===================================================================== *)
(** ** The dice *)
(* ===================================================================== *)

(** The seven dice of [DIE_MAX]. *)
Lemma DIE_MAX_inv dieType max :
  Dice.DIE_MAX !! dieType = Some max →
  (dieType, max) ∈ [("d4", 4); ("d6", 6); ("d8", 8); ("d10", 10); ("d12", 12);
                    ("d20", 20); ("d100", 100)].
Proof.
  unfold Dice.DIE_MAX. intros H.
  by apply elem_of_list_to_map_2 in H.
Qed.

(** Each of them has a positive maximum. *)
Lemma DIE_MAX_pos dieType max : Dice.DIE_MAX !! dieType = Some max → 0 < max.
Proof.
  intros H%DIE_MAX_inv. set_unfold.
  repeat (destruct H as [H|H]; [inversion H; lia|]). done.
Qed.

(** The automatic roll of a known die resolves inside the die's range. *)
Lemma digitalRoll_range dieType max w :
  Dice.DIE_MAX !! dieType = Some max →
  ∃ v w', Dice.digitalRoll dieType w = Resolved v w' ∧ 1 ≤ v ≤ max.
Proof.
  intros Hmax. pose proof (DIE_MAX_pos _ _ Hmax) as Hpos.
  unfold Dice.digitalRoll. rewrite Hmax, decide_False by lia.
  unfold bind, JS.Math_floor_random_times, ret. eexists _, _. split; [done|].
  pose proof (Nat.mod_upper_bound (entropy w (randomCalls w)) (Z.to_nat max)).
  lia.
Qed.

(** The modal only lets through a value of the die's range. *)
Lemma submit_range max value v :
  UI.submit (Some max) value = Some v → v = v ∧ 1 ≤ v ≤ max.
Proof.
  unfold UI.submit. destruct value as [x|]; [|done].
  repeat case_decide; intros [= <-]; lia.
Qed.

(** So the promise of the modal resolves inside the range. *)
Lemma resolve_first_range max entries v :
  UI.resolve_first (Some max) entries = Some v → 1 ≤ v ≤ max.
Proof.
  induction entries as [|e rest IH]; [done|]. cbn [UI.resolve_first].
  destruct (UI.submit (Some max) e) as [x|] eqn:He; [|done].
  intros [= <-]. by apply submit_range in He as [_ ?].
Qed.

(** [UI.diceInput] for a die of the table resolves inside the die's range. *)
Lemma diceInput_range entries dieType max v :
  Dice.DIE_MAX !! dieType = Some max →
  UI.diceInput entries dieType = Some v → 1 ≤ v ≤ max.
Proof.
  unfold UI.diceInput, Dice.getDieMax. intros ->. apply resolve_first_range.
Qed.

(** What any roll leaves of the world: it adds its request to the list,
    may consume random values, and touches nothing else. *)
Lemma roll_cases dieType w :
  ∃ w', same_setup w w' ∧
        App_gameState w' = App_gameState w ∧
        localStorage w' = localStorage w ∧
        diceRequests w' = diceRequests w ++ [dieType] ∧
        (Dice.roll dieType w = Pending w' ∨
         (∃ msg, Dice.roll dieType w = Threw msg w') ∨
         (∃ v, Dice.roll dieType w = Resolved v w')).
Proof.
  destruct w as [dp kp scr g ls pl en rc dr cr].
  unfold Dice.roll, Dice.digitalRoll, same_setup.
  cbn [Dice_provider diceRequests set_diceRequests].
  destruct dp as [p|].
  - destruct (p (length dr) dieType) as [v|]; cbn; eexists.
    + split_and!; [..|right; right; eexists; reflexivity]; done.
    + split_and!; [..|left; reflexivity]; done.
  - destruct (Dice.DIE_MAX !! dieType) as [max|]; [case_decide|]; cbn; eexists.
    + split_and!; [..|right; left; eexists; reflexivity]; done.
    + split_and!; [..|right; right; eexists; reflexivity]; done.
    + split_and!; [..|right; left; eexists; reflexivity]; done.
Qed.

(* ===================================================================== *)
(** ** The recruit attempt *)
(* ===================================================================== *)

(** Past the null check the state is there. *)
Lemma the_state_Some w gs : App_gameState w = Some gs → App.the_state w = Resolved gs w.
Proof. unfold App.the_state. by intros ->. Qed.

(** [addLogEntry] appends one entry stamped with the current turn. *)
Lemma addLogEntry_Some text w gs :
  App_gameState w = Some gs →
  App.addLogEntry text w =
    Resolved tt (set_App_gameState (Some (logged (mkLogEntry (currentTurn gs) text) gs)) w).
Proof. unfold App.addLogEntry, bind, App.getState. by intros ->. Qed.

(** Calls that keep the setup compose. *)
Lemma same_setup_trans w1 w2 w3 : same_setup w1 w2 → same_setup w2 w3 → same_setup w1 w3.
Proof. unfold same_setup. intros (?&?&?&?&?&?) (?&?&?&?&?&?). split_and!; congruence. Qed.

(** The rolling path of [attemptRecruit]: a target card and a recruiter.
    The first die asked for is the d10. Either a roll does not deliver, and
    the game state and the store are as before; or the attempt resolves,
    succeeds exactly when the dice total plus [leaderSkillLevel] reaches the
    card's value, logs one entry, moves the card on success, and saves. *)
Lemma attemptRecruit_rolled poolIndex w gs c :
  App_gameState w = Some gs →
  JS.array_get (recruitPool gs) poolIndex = Some c →
  ¬ (length (operatives gs) = 0%nat ∧ leaderSkillLevel gs = 0) →
  ∃ w' bonus,
    same_setup w w' ∧
    diceRequests w' = diceRequests w ++ "d10" :: bonus ∧
    (((App.attemptRecruit poolIndex w = Pending w' ∨
       ∃ msg, App.attemptRecruit poolIndex w = Threw msg w') ∧
      App_gameState w' = Some gs ∧ localStorage w' = localStorage w)
     ∨
     (∃ diceTotal text,
        let success := bool_decide (diceTotal + leaderSkillLevel gs >= value c) in
        let gs' := logged (mkLogEntry (currentTurn gs) text)
                     (if success then recruited poolIndex c gs else gs) in
        App.attemptRecruit poolIndex w = Resolved (App.Rolled success) w' ∧
        App_gameState w' = Some gs' ∧
        localStorage w' = <[current_slot := gs']> (localStorage w))).
Proof.
  intros Hgs Hc Hrec.
  remember (App.attemptRecruit poolIndex w) as o eqn:Ho.
  unfold App.attemptRecruit in Ho. unfold bind at 1 in Ho. unfold App.getState at 1 in Ho.
  rewrite Hgs, Hc, decide_False in Ho by done.
  destruct (roll_cases "d10" w) as (w1 & Hs1 & Hg1 & Hl1 & Hd1 & Hroll1).
  unfold bind at 1 in Ho.
  destruct Hroll1 as [E|[[msg E]|[base E]]]; rewrite E in Ho.
  { exists w1, []. split; [done|]. split; [done|]. left. rewrite Hg1, Hl1. eauto. }
  { exists w1, []. split; [done|]. split; [done|]. left. rewrite Hg1, Hl1. eauto. }
  unfold bind at 1 in Ho. rewrite (the_state_Some w1 gs) in Ho by congruence.
  unfold bind at 1 in Ho.
  match type of Ho with _ = match ?m w1 with _ => _ end =>
    assert (∃ w2 bonus,
      same_setup w w2 ∧ App_gameState w2 = Some gs ∧
      localStorage w2 = localStorage w ∧
      diceRequests w2 = diceRequests w ++ "d10" :: bonus ∧
      (m w1 = Pending w2 ∨ (∃ msg, m w1 = Threw msg w2) ∨
       ∃ tot rb, m w1 = Resolved (tot, rb) w2)) as Hmid
  end.
  { destruct (App.getInfluenceDie (influence gs)) as [die|].
    - destruct (roll_cases die w1) as (w2 & Hs2 & Hg2 & Hl2 & Hd2 & Hroll2).
      exists w2, [die]. split; [by eapply same_setup_trans|].
      split; [congruence|]. split; [congruence|].
      split; [by rewrite Hd2, Hd1, <- app_assoc|].
      unfold bind.
      destruct Hroll2 as [E2|[[msg E2]|[b E2]]]; rewrite E2; eauto.
    - exists w1, []. split; [done|]. split; [congruence|]. split; [done|].
      split; [done|]. right. right. by eexists _, _. }
  destruct Hmid as (w2 & bonus & Hs2 & Hg2 & Hl2 & Hd2 & Hmid).
  destruct Hmid as [E2|[[msg E2]|(tot & rb & E2)]]; rewrite E2 in Ho.
  { exists w2, bonus. split; [done|]. split; [done|]. left. eauto. }
  { exists w2, bonus. split; [done|]. split; [done|]. left. eauto. }
  clear E2 E Hs1 Hg1 Hl1 Hd1.
  destruct w2 as [dp kp scr g ls pl en rc dr cr].
  unfold same_setup in *. cbn in Hg2, Hl2, Hs2, Hd2. subst g ls.
  unfold bind, App.the_state, App.modify_state, App.addLogEntry, GameState.save,
    modify_world, ret, App.getState in Ho.
  cbn [App_gameState] in Ho.
  destruct (bool_decide (tot + leaderSkillLevel gs >= value c)) eqn:Hsucc.
  - cbn [bind App.the_state App_gameState set_App_gameState] in Ho.
    rewrite (splice_one _ _ _ Hc) in Ho. subst o.
    destruct gs. cbn in *. eexists _, bonus.
    split; [|split]; [..|right; exists tot; eexists; rewrite Hsucc;
                         split_and!; reflexivity]; done.
  - subst o. destruct gs. cbn in *. eexists _, bonus.
    split; [|split]; [..|right; exists tot; eexists; rewrite Hsucc;
                         split_and!; reflexivity]; done.
Qed.

(** Logging one line per element only grows the log. *)
Lemma for_each_log {A} (l : list A) (f : A → string) : ∀ w gs,
  App_gameState w = Some gs →
  App.for_each l (λ x, App.addLogEntry (f x)) w =
    Resolved tt (set_App_gameState
      (Some (set_turnLog (turnLog gs ++ ((λ x, mkLogEntry (currentTurn gs) (f x)) <$> l)) gs)) w).
Proof.
  induction l as [|x l IH]; intros w gs Hgs.
  - cbn. rewrite app_nil_r. destruct w, gs; cbn in *. by subst.
  - cbn [App.for_each]. unfold bind. rewrite (addLogEntry_Some _ _ _ Hgs).
    erewrite IH; [|by destruct w]. destruct w, gs; cbn.
    by rewrite <- app_assoc.
Qed.

(** ** Drawing to the pool, and the start of a game *)

(** Without a deck provider, [drawToPool] resolves: the drawn cards leave
    the deck for the end of the pool, and the log grows. *)
Lemma drawToPool_digital count w gs :
  App_gameState w = Some gs →
  Deck_provider w = None →
  ∃ w' entries,
    App.drawToPool count w = Resolved tt w' ∧
    Deck_provider w' = None ∧
    App_gameState w' =
      Some (set_turnLog (turnLog gs ++ entries)
             (set_recruitPool (recruitPool gs ++ (Deck.digitalDraw (recruitDeck gs) count).1)
               (set_recruitDeck (Deck.digitalDraw (recruitDeck gs) count).2 gs))).
Proof.
  intros Hgs Hdp. unfold App.drawToPool. unfold bind at 1. unfold App.getState at 1.
  rewrite Hgs. unfold bind at 1. unfold Deck.draw. rewrite Hdp.
  destruct (Deck.digitalDraw (recruitDeck gs) count) as [drawn deck] eqn:Hdraw.
  unfold bind at 1. unfold App.modify_state at 1, bind at 1.
  destruct w as [dp kp scr g ls pl en rc dr cr]. cbn in Hgs, Hdp. subst g kp.
  cbn [App.the_state set_cardRequests App_gameState modify_world set_App_gameState].
  unfold bind at 1. unfold App.modify_state at 1, bind at 1.
  cbn [App.the_state set_cardRequests App_gameState modify_world set_App_gameState].
  unfold bind at 1.
  erewrite for_each_log; [|done].
  cbn [App.the_state set_cardRequests App_gameState modify_world set_App_gameState bind].
  unfold GameState.save, modify_world.
  destruct gs; cbn.
  eexists _, _. split; [reflexivity|]. split; [done|]. reflexivity.
Qed.

(** [beginGame] resolves; unless the card select says physical, it leaves no
    deck provider, a deck of 52 cards and no card anywhere else. *)
Lemma beginGame_digital w0 resistance regime diceSelect cardsSelect :
  cardsSelect ≠ Some "physical" →
  ∃ w gs,
    App.beginGame resistance regime diceSelect cardsSelect w0 = Resolved tt w ∧
    App_gameState w = Some gs ∧
    Deck_provider w = None ∧
    length (recruitDeck gs) = 52%nat ∧
    recruitPool gs = [] ∧ initiates gs = [] ∧ operatives gs = [] ∧
    detainedOperatives gs = [].
Proof.
  intros Hmode. unfold App.beginGame. unfold bind at 1.
  destruct (shuffle_spec Deck.createDeck w0) as (deck & n & -> & Hlen).
  rewrite createDeck_length in Hlen.
  unfold bind at 1. unfold modify_world at 1.
  unfold bind at 1. unfold App.syncInputProviders.
  unfold bind at 1. unfold App.getState at 1.
  destruct w0 as [dp kp scr g ls pl en rc dr cr].
  cbn [set_randomCalls set_App_gameState App_gameState].
  unfold bind, get_world, Dice.setProvider, Deck.setProvider, modify_world,
    GameState.save, App.showScreen.
  destruct diceSelect as [dv|], cardsSelect as [cv|]; cbn;
    repeat case_decide; subst; try done; cbn; eexists _, _; split_and!; try reflexivity; done.
Qed.

(** ** The paths of [attemptRecruit] that roll no dice *)

(** No game: the first [return]. *)
Lemma attemptRecruit_no_state poolIndex w :
  App_gameState w = None → App.attemptRecruit poolIndex w = Resolved App.NoTarget w.
Proof. intros H. unfold App.attemptRecruit, bind, App.getState. by rewrite H. Qed.

(** No card at the index: the second [return]. *)
Lemma attemptRecruit_no_card poolIndex w gs :
  App_gameState w = Some gs →
  JS.array_get (recruitPool gs) poolIndex = None →
  App.attemptRecruit poolIndex w = Resolved App.NoTarget w.
Proof.
  intros Hgs Hc. unfold App.attemptRecruit, bind, App.getState. by rewrite Hgs, Hc.
Qed.

(** No operative and no leader skill: one log entry, then the third
    [return]. *)
Lemma attemptRecruit_no_recruiter poolIndex w gs c :
  App_gameState w = Some gs →
  JS.array_get (recruitPool gs) poolIndex = Some c →
  length (operatives gs) = 0%nat ∧ leaderSkillLevel gs = 0 →
  App.attemptRecruit poolIndex w =
    Resolved App.NoRecruiter
      (set_App_gameState
         (Some (logged (mkLogEntry (currentTurn gs)
                          "No operatives available to attempt recruitment.") gs)) w).
Proof.
  intros Hgs Hc Hnone. unfold App.attemptRecruit. unfold bind at 1.
  unfold App.getState at 1. rewrite Hgs, Hc, decide_True by done.
  unfold bind. by rewrite (addLogEntry_Some _ _ _ Hgs).
Qed.

(** ** Counting cards *)

(** A log entry moves no card. *)
Lemma card_count_logged e gs : card_count (logged e gs) = card_count gs.
Proof. by destruct gs. Qed.

(** A recruited card leaves the pool and joins the initiates. *)
Lemma card_count_recruited poolIndex c gs :
  JS.array_get (recruitPool gs) poolIndex = Some c →
  card_count (recruited poolIndex c gs) = card_count gs.
Proof.
  intros [_ Hc]%array_get_Some. destruct gs. unfold card_count, recruited. cbn in *.
  rewrite length_app, length_delete by eauto.
  pose proof (lookup_lt_Some _ _ _ Hc). cbn. lia.
Qed.

(** Cards drawn leave the deck and join the pool. *)
Lemma card_count_drawn gs drawn deck log :
  (length drawn + length deck = length (recruitDeck gs))%nat →
  card_count (set_turnLog log
               (set_recruitPool (recruitPool gs ++ drawn) (set_recruitDeck deck gs)))
  = card_count gs.
Proof.
  intros Hsum. destruct gs. unfold card_count. cbn in *. rewrite length_app. lia.
Qed.

(** The invariant of the reachable worlds: still no deck provider, a game
    state, and 52 cards in it. *)
Lemma reachable_inv w :
  reachable w →
  Deck_provider w = None ∧ ∃ gs, App_gameState w = Some gs ∧ card_count gs = 52%nat.
Proof.
  induction 1 as [w0 res reg dsel csel Hmode
                 |w count _ (Hdp & gs & Hgs & Hcount)
                 |w poolIndex _ (Hdp & gs & Hgs & Hcount)].
  - destruct (beginGame_digital w0 res reg dsel csel Hmode)
      as (w & gs & -> & Hgs & Hdp & Hdeck & Hpool & Hini & Hops & Hdet).
    cbn. split; [done|]. exists gs. split; [done|].
    unfold card_count. by rewrite Hdeck, Hpool, Hini, Hops, Hdet.
  - destruct (drawToPool_digital count w gs Hgs Hdp) as (w' & entries & -> & Hdp' & Hgs').
    cbn. split; [done|]. eexists. split; [done|].
    rewrite card_count_drawn; [done|]. apply digitalDraw_conserves.
  - destruct (JS.array_get (recruitPool gs) poolIndex) as [c|] eqn:Hc.
    2: { rewrite (attemptRecruit_no_card _ _ _ Hgs Hc). cbn. eauto. }
    destruct (decide (length (operatives gs) = 0%nat ∧ leaderSkillLevel gs = 0))
      as [Hnone|Hsome].
    { rewrite (attemptRecruit_no_recruiter _ _ _ _ Hgs Hc Hnone). cbn.
      destruct w; cbn in *. split; [done|]. eexists. split; [done|].
      by rewrite card_count_logged. }
    destruct (attemptRecruit_rolled _ _ _ _ Hgs Hc Hsome)
      as (w' & bonus & Hsetup & _ & Hcases).
    assert (Deck_provider w' = None) as Hdp' by (destruct Hsetup as (_ & -> & _); done).
    destruct Hcases as [([->|[msg ->]] & Hgs' & _)|(tot & text & Hrun & Hgs' & _)];
      [cbn; eauto..|].
    cbv zeta in Hrun, Hgs'. rewrite Hrun. cbn. split; [done|]. eexists. split; [done|].
    rewrite card_count_logged. case_bool_decide; [|done].
    by rewrite card_count_recruited.
Qed.

(** ** The outcome of a roll *)

(** The rolling path when the influence earns no bonus die and the d10
    delivers [base]: the attempt resolves, and it succeeds exactly when
    [base + leaderSkillLevel] reaches the card's value. *)
Lemma attemptRecruit_single_die poolIndex w gs c base w1 :
  App_gameState w = Some gs →
  JS.array_get (recruitPool gs) poolIndex = Some c →
  ¬ (length (operatives gs) = 0%nat ∧ leaderSkillLevel gs = 0) →
  App.getInfluenceDie (influence gs) = None →
  Dice.roll "d10" w = Resolved base w1 →
  ∃ text,
    App.attemptRecruit poolIndex w =
      Resolved (App.Rolled (bool_decide (base + leaderSkillLevel gs >= value c)))
        (set_localStorage
           (<[current_slot :=
                logged (mkLogEntry (currentTurn gs) text)
                  (if bool_decide (base + leaderSkillLevel gs >= value c)
                   then recruited poolIndex c gs else gs)]> (localStorage w1))
           (set_App_gameState
              (Some (logged (mkLogEntry (currentTurn gs) text)
                       (if bool_decide (base + leaderSkillLevel gs >= value c)
                        then recruited poolIndex c gs else gs))) w1)).
Proof.
  intros Hgs Hc Hrec Hdie Hroll.
  destruct (roll_cases "d10" w) as (w' & _ & Hg1 & _ & _ & [E|[[msg E]|[v E]]]);
    rewrite Hroll in E; try discriminate.
  injection E as <- <-. rewrite Hgs in Hg1.
  unfold App.attemptRecruit. unfold bind at 1. unfold App.getState at 1.
  rewrite Hgs, Hc, decide_False by done.
  unfold bind at 1. rewrite Hroll.
  unfold bind at 1. rewrite (the_state_Some w1 gs Hg1).
  unfold bind at 1. rewrite Hdie. unfold ret at 1.
  destruct w1 as [dp kp scr g ls pl en rc dr cr]. cbn in Hg1. subst g.
  unfold bind, App.the_state, App.modify_state, App.addLogEntry, GameState.save,
    modify_world, ret, App.getState.
  cbn [App_gameState].
  destruct (bool_decide (base + leaderSkillLevel gs >= value c)).
  - cbn [bind App.the_state App_gameState set_App_gameState].
    rewrite (splice_one _ _ _ Hc). destruct gs. cbn. eexists. reflexivity.
  - destruct gs. cbn. eexists. reflexivity.
Qed.


(** A resolved roll of [attemptRecruit] had a target card; the state it
    leaves is the old one with one more log entry, and with the card moved
    when the roll succeeded. *)
Lemma attemptRecruit_Rolled_inv poolIndex w w' gs success :
  App_gameState w = Some gs →
  App.attemptRecruit poolIndex w = Resolved (App.Rolled success) w' →
  ∃ c text,
    JS.array_get (recruitPool gs) poolIndex = Some c ∧
    App_gameState w' =
      Some (logged (mkLogEntry (currentTurn gs) text)
              (if success then recruited poolIndex c gs else gs)).
Proof.
  intros Hgs Hrun.
  destruct (JS.array_get (recruitPool gs) poolIndex) as [c|] eqn:Hc.
  2: { by rewrite (attemptRecruit_no_card _ _ _ Hgs Hc) in Hrun. }
  destruct (decide (length (operatives gs) = 0%nat ∧ leaderSkillLevel gs = 0))
    as [Hnone|Hsome].
  { by rewrite (attemptRecruit_no_recruiter _ _ _ _ Hgs Hc Hnone) in Hrun. }
  destruct (attemptRecruit_rolled _ _ _ _ Hgs Hc Hsome)
    as (w2 & bonus & _ & _ & Hcases).
  destruct Hcases as [([E|[msg E]] & _)|(tot & text & E & Hgs' & _)];
    [congruence..|].
  cbv zeta in E, Hgs'. rewrite E in Hrun. injection Hrun as <- <-.
  by exists c, text.
Qed.

(* ===================================================================== *)
(** ** The properties of the specification *)
(* ===================================================================== *)

(** C1. The specification: the dice total alone, compared with the card's
    value, decides a recruit attempt, so with a card of value 8, leader
    skill 10 and a d10 roll of 5 the attempt fails. The code adds
    [leaderSkillLevel] to the total: with one operative, no bonus die, a
    card of value [v], leader skill [skill] and a d10 roll of [roll], the
    attempt succeeds exactly when [roll + skill >= v]; and in the game of
    the specification it succeeds with 5 + 10 = 15 against 8, after the
    single d10 request, and the card leaves the pool for the initiates. *)
Theorem recruit_total_includes_leader_skill :
  (∀ skill roll v : Z,
     ∃ w',
       App.attemptRecruit 0
         (test_world (game_of_test skill [mkCard "spades" "8" v] [ten_of_clubs])
                     (scripted [roll]))
       = Resolved (App.Rolled (bool_decide (roll + skill >= v))) w') ∧
  (∃ w',
     App.attemptRecruit 0 skilled_world = Resolved (App.Rolled true) w' ∧
     diceRequests w' = ["d10"] ∧
     recruitPool <$> App_gameState w' = Some [] ∧
     initiates <$> App_gameState w' = Some [mkTimed eight_of_spades 2] ∧
     (λ gs, text <$> turnLog gs) <$> App_gameState w' =
       Some ["Recruit success! 8♠ (d10: 5 + leader(10) = 15 vs 8) → Initiate (2 turns)"]).
Proof.
  split.
  - intros skill roll v.
    edestruct (attemptRecruit_single_die 0
      (test_world (game_of_test skill [mkCard "spades" "8" v] [ten_of_clubs])
                  (scripted [roll]))) as [text Hrun];
      [reflexivity|reflexivity|by intros [? _]|reflexivity|reflexivity|].
    eexists. exact Hrun.
  - eexists. split_and!; [vm_compute; reflexivity|..]; reflexivity.
Qed.

(** C2. The specification: the Leader may always attempt, so an attempt is
    never refused for lack of a recruiter. The code refuses when there is
    no operative and [leaderSkillLevel] is 0: with the 4 of hearts in the
    pool and a provider that would roll 10, no die is requested, the card
    stays in the pool, and the log says that no operative is available. *)
Theorem leader_refused_without_operatives :
  ∃ w',
    App.attemptRecruit 0 leader_only_world = Resolved App.NoRecruiter w' ∧
    diceRequests w' = [] ∧
    recruitPool <$> App_gameState w' = Some [four_of_hearts] ∧
    initiates <$> App_gameState w' = Some [] ∧
    turnLog <$> App_gameState w' =
      Some [mkLogEntry 1 "No operatives available to attempt recruitment."].
Proof. eexists. split_and!; [vm_compute; reflexivity|..]; reflexivity. Qed.

(** C3. Card conservation: in every world reachable from [beginGame] by
    [drawToPool] and [attemptRecruit] with digital cards, there is a game
    state, and its deck, pool, initiates, operatives and detained
    operatives hold 52 cards in all. *)
Theorem card_conservation w :
  reachable w →
  ∃ gs, App_gameState w = Some gs ∧ card_count gs = 52%nat.
Proof. intros H. by destruct (reachable_inv w H) as [_ ?]. Qed.

(** C3 at a game begun, three cards drawn and one attempt made. *)
Lemma card_conservation_witness :
  reachable played_world ∧
  ∃ gs, App_gameState played_world = Some gs ∧ card_count gs = 52%nat.
Proof.
  assert (reachable played_world) as H.
  { unfold played_world. apply reach_recruit, reach_draw, reach_begin. discriminate. }
  split; [exact H|]. exact (card_conservation played_world H).
Defined.

(** C4. The specification: the player may spend 1 supply to roll a d12
    instead of the d10, and the supply is consumed whatever the outcome.
    The code has no such option: [attemptRecruit] takes the pool index
    only, whatever becomes of the call the supplies are what they were,
    and when a die is requested the first one is the d10. So it is with
    one supply in stock: the d10 is rolled and the supply is still there. *)
Theorem recruit_has_no_supply_upgrade :
  (∀ poolIndex w,
     supplies <$> App_gameState (outcome_world (App.attemptRecruit poolIndex w))
       = supplies <$> App_gameState w ∧
     (diceRequests (outcome_world (App.attemptRecruit poolIndex w)) = diceRequests w ∨
      ∃ bonus,
        diceRequests (outcome_world (App.attemptRecruit poolIndex w))
          = diceRequests w ++ "d10" :: bonus)) ∧
  supplies <$> App_gameState (outcome_world (App.attemptRecruit 0 supplied_world))
    = Some 1 ∧
  diceRequests (outcome_world (App.attemptRecruit 0 supplied_world)) = ["d10"].
Proof.
  split; [|by vm_compute].
  intros poolIndex w.
  destruct (App_gameState w) as [gs|] eqn:Hgs.
  2: { rewrite (attemptRecruit_no_state _ _ Hgs). cbn. rewrite Hgs. eauto. }
  destruct (JS.array_get (recruitPool gs) poolIndex) as [c|] eqn:Hc.
  2: { rewrite (attemptRecruit_no_card _ _ _ Hgs Hc). cbn. rewrite Hgs. eauto. }
  destruct (decide (length (operatives gs) = 0%nat ∧ leaderSkillLevel gs = 0))
    as [Hnone|Hsome].
  { rewrite (attemptRecruit_no_recruiter _ _ _ _ Hgs Hc Hnone).
    destruct w, gs; cbn in *. eauto. }
  destruct (attemptRecruit_rolled _ _ _ _ Hgs Hc Hsome)
    as (w' & bonus & _ & Hreq & Hcases).
  destruct Hcases as [([->|[msg ->]] & Hgs' & _)|(tot & text & Hrun & Hgs' & _)].
  - cbn. rewrite Hgs'. eauto.
  - cbn. rewrite Hgs'. eauto.
  - cbv zeta in Hrun, Hgs'. rewrite Hrun. cbn. rewrite Hgs'. split; [|eauto].
    destruct gs; by case_bool_decide.
Qed.

(** C5, as the specification states it: whatever a provider supplies,
    the value [Dice.roll] returns for a die of the table lies between 1
    and the die's maximum. It does not: a provider that answers 7 to
    every request makes [Dice.roll('d4')] resolve with 7. *)
Lemma provider_value_not_validated :
  ¬ (∀ (p : DiceProvider) dieType max w v w',
       Dice.DIE_MAX !! dieType = Some max →
       Dice_provider w = Some p →
       Dice.roll dieType w = Resolved v w' →
       1 ≤ v ≤ max).
Proof.
  intros H.
  specialize (H (always 7) "d4" 4 (test_world GameState.createInitial (always 7)) 7 _
                eq_refl eq_refl eq_refl).
  lia.
Qed.

(** C5, amended. For a die of the table: without a provider the roll
    resolves with a value between 1 and the die's maximum; with a
    provider [Dice.roll] returns what the provider returns, as it is, and
    when the provider is the modal [UI.diceInput] a value it resolves with
    lies between 1 and the die's maximum, the modal having let nothing
    else through. *)
Theorem roll_range_by_provider dieType max w :
  Dice.DIE_MAX !! dieType = Some max →
  match Dice_provider w with
  | None => ∃ v w', Dice.roll dieType w = Resolved v w' ∧ 1 ≤ v ≤ max
  | Some p =>
      Dice.roll dieType w =
        match p (length (diceRequests w)) dieType with
        | Some v => Resolved v (set_diceRequests (diceRequests w ++ [dieType]) w)
        | None => Pending (set_diceRequests (diceRequests w ++ [dieType]) w)
        end ∧
      ∀ pl v w',
        p = UI.diceInput_provider pl →
        Dice.roll dieType w = Resolved v w' → 1 ≤ v ≤ max
  end.
Proof.
  intros Hmax. unfold Dice.roll. destruct (Dice_provider w) as [p|].
  - split; [done|]. intros pl v w' -> Hroll. unfold UI.diceInput_provider in Hroll.
    destruct (UI.diceInput _ dieType) as [x|] eqn:Hin; [|done].
    injection Hroll as <- _. by eapply diceInput_range.
  - by apply digitalRoll_range.
Qed.

(** C5 amended, at a d6 in the physical mode: of the entries 9, nothing,
    0 and 4 the modal lets the 4 through. *)
Lemma roll_range_by_provider_witness :
  Dice.DIE_MAX !! "d6" = Some 6 ∧
  Dice.roll "d6" physical_world =
    Resolved 4 (set_diceRequests ["d6"] physical_world) ∧
  1 ≤ 4 ≤ 6.
Proof.
  assert (Dice.DIE_MAX !! "d6" = Some 6) as Hmax by reflexivity.
  pose proof (roll_range_by_provider "d6" 6 physical_world Hmax) as [Hroll Hrange].
  split; [exact Hmax|]. split; [exact Hroll|].
  exact (Hrange typing_player 4 _ eq_refl Hroll).
Defined.

(** C6. Clamping: for every integer [x] and every state, [setInfluence]
    leaves the influence in [0, 500], [setHeat] the heat in [0, 100] and
    [setSupplies] the supplies at 0 or more; [addInfluence], [addHeat] and
    [addSupplies] are these setters applied to the old value plus the
    delta, and so leave the same ranges. *)
Theorem setters_clamp state x :
  (0 ≤ influence (GameState.setInfluence state x) ≤ 500 ∧
   0 ≤ heat (GameState.setHeat state x) ≤ 100 ∧
   0 ≤ supplies (GameState.setSupplies state x)) ∧
  (GameState.addInfluence state x = GameState.setInfluence state (influence state + x) ∧
   GameState.addHeat state x = GameState.setHeat state (heat state + x) ∧
   GameState.addSupplies state x = GameState.setSupplies state (supplies state + x)) ∧
  (0 ≤ influence (GameState.addInfluence state x) ≤ 500 ∧
   0 ≤ heat (GameState.addHeat state x) ≤ 100 ∧
   0 ≤ supplies (GameState.addSupplies state x)).
Proof.
  unfold GameState.addInfluence, GameState.addHeat, GameState.addSupplies,
    GameState.setInfluence, GameState.setHeat, GameState.setSupplies, GameState.clamp.
  destruct state; cbn. split_and!; try reflexivity; lia.
Qed.

(** C7. A successful attempt removes the target card from the pool, appends
    it to the initiates with [turnsRemaining = 2] and logs one entry, all
    other fields as before. In particular, with the 3 of clubs alone in
    the pool, one operative of value 5 and the dice sequence 7, after
    [attemptRecruit(0)] the pool is empty and the initiates are that one
    card with two turns remaining: so it is whatever the leader skill, and
    with the leader skill 5 of the test the log reads as shown. *)
Theorem recruit_success_moves_card :
  (∀ poolIndex w w' gs c,
     App_gameState w = Some gs →
     JS.array_get (recruitPool gs) poolIndex = Some c →
     App.attemptRecruit poolIndex w = Resolved (App.Rolled true) w' →
     ∃ gs' entry,
       App_gameState w' = Some gs' ∧
       gs' = logged entry (recruited poolIndex c gs) ∧
       recruitPool gs' = delete (Z.to_nat poolIndex) (recruitPool gs) ∧
       initiates gs' = initiates gs ++ [mkTimed c 2] ∧
       turnLog gs' = turnLog gs ++ [entry]) ∧
  (∀ skill : nat,
     ∃ w',
       App.attemptRecruit 0
         (test_world (game_of_test (Z.of_nat skill) [three_of_clubs] [five_of_hearts])
                     (scripted [7]))
       = Resolved (App.Rolled true) w' ∧
       diceRequests w' = ["d10"] ∧
       recruitPool <$> App_gameState w' = Some [] ∧
       initiates <$> App_gameState w' = Some [mkTimed three_of_clubs 2]) ∧
  (∃ w',
     App.attemptRecruit 0 success_world = Resolved (App.Rolled true) w' ∧
     recruitPool <$> App_gameState w' = Some [] ∧
     initiates <$> App_gameState w' = Some [mkTimed three_of_clubs 2] ∧
     (λ gs, text <$> turnLog gs) <$> App_gameState w' =
       Some ["Recruit success! 3♣ (d10: 7 + leader(5) = 12 vs 3) → Initiate (2 turns)"]).
Proof.
  split; [|split].
  2: { intros skill.
    edestruct (attemptRecruit_single_die 0
      (test_world (game_of_test (Z.of_nat skill) [three_of_clubs] [five_of_hearts])
                  (scripted [7]))) as [text Hrun];
      [reflexivity|reflexivity|by intros [? _]|reflexivity|reflexivity|].
    rewrite Hrun. rewrite bool_decide_eq_true_2 by (cbn; lia).
    eexists. split; [reflexivity|]. done. }
  - intros poolIndex w w' gs c Hgs Hc Hrun.
    destruct (attemptRecruit_Rolled_inv _ _ _ _ _ Hgs Hrun) as (c' & text & Hc' & Hgs').
    assert (c' = c) as -> by congruence.
    eexists _, _. split; [exact Hgs'|]. split; [reflexivity|].
    by destruct gs.
  - eexists. split_and!; [vm_compute; reflexivity|..]; reflexivity.
Qed.

(** C7 at the game of the scenario. *)
Lemma recruit_success_moves_card_witness :
  App_gameState success_world = Some success_game ∧
  JS.array_get (recruitPool success_game) 0 = Some three_of_clubs ∧
  App.attemptRecruit 0 success_world =
    Resolved (App.Rolled true) (outcome_world (App.attemptRecruit 0 success_world)) ∧
  ∃ gs' entry,
    App_gameState (outcome_world (App.attemptRecruit 0 success_world)) = Some gs' ∧
    gs' = logged entry (recruited 0 three_of_clubs success_game) ∧
    recruitPool gs' = delete (Z.to_nat 0) (recruitPool success_game) ∧
    initiates gs' = initiates success_game ++ [mkTimed three_of_clubs 2] ∧
    turnLog gs' = turnLog success_game ++ [entry].
Proof.
  assert (App_gameState success_world = Some success_game) as H1 by reflexivity.
  assert (JS.array_get (recruitPool success_game) 0 = Some three_of_clubs) as H2
    by reflexivity.
  assert (App.attemptRecruit 0 success_world =
          Resolved (App.Rolled true) (outcome_world (App.attemptRecruit 0 success_world)))
    as H3 by (vm_compute; reflexivity).
  split; [exact H1|]. split; [exact H2|]. split; [exact H3|].
  exact (proj1 recruit_success_moves_card 0 success_world _ success_game
           three_of_clubs H1 H2 H3).
Defined.

(** The failure branch of the code, taken when the total with
    [leaderSkillLevel] added is below the card's value: it changes the game
    state by the appended log entry only. *)
Lemma recruit_failure_only_logs poolIndex w w' gs :
  App_gameState w = Some gs →
  App.attemptRecruit poolIndex w = Resolved (App.Rolled false) w' →
  ∃ gs' entry,
    App_gameState w' = Some gs' ∧
    gs' = logged entry gs ∧
    turnLog gs' = turnLog gs ++ [entry] ∧
    recruitPool gs' = recruitPool gs ∧
    JS.array_get (recruitPool gs') poolIndex = JS.array_get (recruitPool gs) poolIndex ∧
    is_Some (JS.array_get (recruitPool gs') poolIndex) ∧
    initiates gs' = initiates gs ∧
    operatives gs' = operatives gs ∧
    detainedOperatives gs' = detainedOperatives gs ∧
    influence gs' = influence gs ∧
    heat gs' = heat gs ∧
    supplies gs' = supplies gs.
Proof.
  intros Hgs Hrun.
  destruct (attemptRecruit_Rolled_inv _ _ _ _ _ Hgs Hrun) as (c & text & Hc & Hgs').
  eexists _, _. split; [exact Hgs'|]. split; [reflexivity|].
  destruct gs; cbn in *. split_and!; try reflexivity. by rewrite Hc.
Qed.

(** C8. The specification: when the roll is below the card's value the
    attempt has failed, and the game state is as before but for one more
    log entry. The code decides on the roll plus [leaderSkillLevel] (the
    defect of C1): with the 8 of spades in the pool, leader skill 10 and a
    d10 roll of 5, the roll is below the card's value, yet the card leaves
    the pool for the initiates, and the state is not the old one with a log
    entry added. *)
Theorem roll_below_value_still_recruits :
  Dice.roll "d10" skilled_world =
    Resolved 5 (set_diceRequests ["d10"] skilled_world) ∧
  5 < value eight_of_spades ∧
  App_gameState skilled_world = Some skilled_game ∧
  JS.array_get (recruitPool skilled_game) 0 = Some eight_of_spades ∧
  initiates skilled_game = [] ∧
  ∃ w' gs',
    App.attemptRecruit 0 skilled_world = Resolved (App.Rolled true) w' ∧
    diceRequests w' = ["d10"] ∧
    App_gameState w' = Some gs' ∧
    recruitPool gs' = [] ∧
    initiates gs' = [mkTimed eight_of_spades 2] ∧
    ∀ entry, gs' ≠ logged entry skilled_game.
Proof.
  do 5 (split; [reflexivity|]).
  eexists _, _. split; [vm_compute; reflexivity|].
  do 4 (split; [reflexivity|]).
  intros entry Heq. apply (f_equal recruitPool) in Heq. discriminate Heq.
Qed.

(** C9. A digital draw does not fail. For every deck and every count it
    returns the first min(count, |deck|) cards and leaves the others in
    the deck; a count below zero draws nothing; from the empty deck it
    returns the empty array; and [Deck.draw] without a provider resolves
    with that draw. *)
Theorem digital_draw_degrades_gracefully :
  (∀ deck (count : nat),
     Deck.digitalDraw deck (Z.of_nat count) =
       (take (count `min` length deck) deck, drop (count `min` length deck) deck) ∧
     length (Deck.digitalDraw deck (Z.of_nat count)).1 = (count `min` length deck)%nat ∧
     (Deck.digitalDraw deck (Z.of_nat count)).1 ++ (Deck.digitalDraw deck (Z.of_nat count)).2
       = deck) ∧
  (∀ deck (n : nat), Deck.digitalDraw deck (- Z.of_nat n) = ([], deck)) ∧
  (∀ count : Z, Deck.digitalDraw [] count = ([], [])) ∧
  (∀ deck count w,
     Deck.draw deck count (set_Deck_provider None w) =
       Resolved (Deck.digitalDraw deck count)
                (set_cardRequests (cardRequests w ++ [count]) (set_Deck_provider None w))).
Proof.
  split_and!.
  - intros deck count. rewrite digitalDraw_take_drop. cbn [fst snd].
    split; [done|]. split; [|apply take_drop].
    rewrite length_take. lia.
  - intros deck n. unfold Deck.digitalDraw. rewrite splice_front.
    by replace (Z.to_nat (Z.min (- Z.of_nat n) (Z.of_nat (length deck)))) with 0%nat by lia.
  - intros count. unfold Deck.digitalDraw. by rewrite splice_front, take_nil, drop_nil.
  - intros deck count w. by destruct w.
Qed.

(** C10. Without an active game, or with a pool index outside the pool,
    [attemptRecruit] resolves and leaves the world as it found it: the
    same game state, no die requested, no log entry, nothing saved. *)
Theorem recruit_without_target_is_noop poolIndex w :
  match App_gameState w with
  | None => True
  | Some gs => poolIndex < 0 ∨ Z.of_nat (length (recruitPool gs)) ≤ poolIndex
  end →
  App.attemptRecruit poolIndex w = Resolved App.NoTarget w.
Proof.
  destruct (App_gameState w) as [gs|] eqn:Hgs.
  - intros Hout%array_get_None. by apply attemptRecruit_no_card with gs.
  - intros _. by apply attemptRecruit_no_state.
Qed.

(** C10 at index 1 of a pool of one card. *)
Lemma recruit_without_target_is_noop_witness :
  (1 < 0 ∨ Z.of_nat (length (recruitPool success_game)) ≤ 1) ∧
  App.attemptRecruit 1 success_world = Resolved App.NoTarget success_world.
Proof.
  assert (1 < 0 ∨ Z.of_nat (length (recruitPool success_game)) ≤ 1) as H
    by (right; cbn; lia).
  split; [exact H|]. exact (recruit_without_target_is_noop 1 success_world H).
Defined.

(* ===================================================================== *)
(** ** Further properties of the modules *)
(* ===================================================================== *)

(** A swap only reorders the deck. *)
Lemma swap_Permutation deck i j : Deck.swap deck i j ≡ₚ deck.
Proof.
  unfold Deck.swap.
  destruct (deck !! j) as [a|] eqn:Ha; [|done].
  destruct (deck !! i) as [b|] eqn:Hb; [|done].
  pose proof (lookup_lt_Some _ _ _ Ha) as Hj.
  pose proof (lookup_lt_Some _ _ _ Hb) as Hi.
  apply Permutation_inj. split; [by rewrite !length_insert|].
  exists (λ k, if decide (k = i) then j else if decide (k = j) then i else k).
  split.
  - intros x y. repeat case_decide; intros; subst; congruence.
  - intros k. rewrite !list_lookup_insert, !length_insert.
    repeat case_decide; subst; try congruence; try lia; try done.
    all: destruct_and?; subst; try congruence; try lia.
Qed.

(** The loop of the shuffle from index [i] resolves with a reordering of the
    deck and takes [i] random values. *)
Lemma shuffle_from_Permutation i : ∀ deck w,
  ∃ deck',
    Deck.shuffle_from i deck w = Resolved deck' (set_randomCalls (randomCalls w + i) w) ∧
    deck' ≡ₚ deck.
Proof.
  induction i as [|i IH]; intros deck w.
  - exists deck. split; [|done]. cbn. unfold ret. f_equal.
    rewrite Nat.add_0_r. by destruct w.
  - cbn [Deck.shuffle_from]. unfold bind, JS.Math_floor_random_times.
    set (j := (entropy w (randomCalls w) `mod` (S i + 1))%nat).
    destruct (IH (Deck.swap deck (S i) j) (set_randomCalls (S (randomCalls w)) w))
      as (deck' & Hrun & Hperm).
    exists deck'. rewrite Hrun. split.
    + f_equal. destruct w; cbn. f_equal. lia.
    + by rewrite Hperm, swap_Permutation.
Qed.

(** A roll that resolves leaves the game state, the store and the setup as
    they were and adds its request. *)
Lemma roll_Resolved_state dieType w v w1 :
  Dice.roll dieType w = Resolved v w1 →
  App_gameState w1 = App_gameState w ∧ localStorage w1 = localStorage w ∧
  same_setup w w1 ∧ diceRequests w1 = diceRequests w ++ [dieType].
Proof.
  intros Hroll.
  destruct (roll_cases dieType w) as (w' & Hs & Hg & Hl & Hd & [E|[[msg E]|[x E]]]);
    rewrite Hroll in E; try discriminate.
  by injection E as <- <-.
Qed.

(** The rolling path when the influence earns a bonus die and both dice
    deliver: the attempt succeeds exactly when the two rolls plus
    [leaderSkillLevel] reach the card's value. *)
Lemma attemptRecruit_bonus_die poolIndex w gs c die base w1 bonus w2 :
  App_gameState w = Some gs →
  JS.array_get (recruitPool gs) poolIndex = Some c →
  ¬ (length (operatives gs) = 0%nat ∧ leaderSkillLevel gs = 0) →
  App.getInfluenceDie (influence gs) = Some die →
  Dice.roll "d10" w = Resolved base w1 →
  Dice.roll die w1 = Resolved bonus w2 →
  ∃ text,
    App.attemptRecruit poolIndex w =
      Resolved (App.Rolled (bool_decide (base + bonus + leaderSkillLevel gs >= value c)))
        (set_localStorage
           (<[current_slot :=
                logged (mkLogEntry (currentTurn gs) text)
                  (if bool_decide (base + bonus + leaderSkillLevel gs >= value c)
                   then recruited poolIndex c gs else gs)]> (localStorage w2))
           (set_App_gameState
              (Some (logged (mkLogEntry (currentTurn gs) text)
                       (if bool_decide (base + bonus + leaderSkillLevel gs >= value c)
                        then recruited poolIndex c gs else gs))) w2)).
Proof.
  intros Hgs Hc Hrec Hdie Hroll1 Hroll2.
  destruct (roll_Resolved_state _ _ _ _ Hroll1) as (Hg1 & _).
  destruct (roll_Resolved_state _ _ _ _ Hroll2) as (Hg2 & _).
  rewrite Hgs in Hg1. rewrite Hg1 in Hg2.
  unfold App.attemptRecruit. unfold bind at 1. unfold App.getState at 1.
  rewrite Hgs, Hc, decide_False by done.
  unfold bind at 1. rewrite Hroll1.
  unfold bind at 1. rewrite (the_state_Some w1 gs Hg1).
  unfold bind at 1. rewrite Hdie. unfold bind at 1. rewrite Hroll2. unfold ret at 1.
  destruct w2 as [dp kp scr g ls pl en rc dr cr]. cbn in Hg2. subst g.
  unfold bind, App.the_state, App.modify_state, App.addLogEntry, GameState.save,
    modify_world, ret, App.getState.
  cbn [App_gameState].
  destruct (bool_decide (base + bonus + leaderSkillLevel gs >= value c)).
  - cbn [bind App.the_state App_gameState set_App_gameState].
    rewrite (splice_one _ _ _ Hc). destruct gs. cbn. eexists. reflexivity.
  - destruct gs. cbn. eexists. reflexivity.
Qed.

(** When the d10 does not deliver, neither does the attempt. *)
Lemma attemptRecruit_base_unresolved poolIndex w gs c :
  App_gameState w = Some gs →
  JS.array_get (recruitPool gs) poolIndex = Some c →
  ¬ (length (operatives gs) = 0%nat ∧ leaderSkillLevel gs = 0) →
  (∀ w1, Dice.roll "d10" w = Pending w1 → App.attemptRecruit poolIndex w = Pending w1) ∧
  (∀ msg w1, Dice.roll "d10" w = Threw msg w1 →
             App.attemptRecruit poolIndex w = Threw msg w1).
Proof.
  intros Hgs Hc Hrec.
  split; [intros w1 Hroll|intros msg w1 Hroll];
    unfold App.attemptRecruit; unfold bind at 1; unfold App.getState at 1;
    rewrite Hgs, Hc, decide_False by done;
    unfold bind at 1; by rewrite Hroll.
Qed.

(** When the bonus die does not deliver, neither does the attempt. *)
Lemma attemptRecruit_bonus_unresolved poolIndex w gs c die base w1 :
  App_gameState w = Some gs →
  JS.array_get (recruitPool gs) poolIndex = Some c →
  ¬ (length (operatives gs) = 0%nat ∧ leaderSkillLevel gs = 0) →
  App.getInfluenceDie (influence gs) = Some die →
  Dice.roll "d10" w = Resolved base w1 →
  (∀ w2, Dice.roll die w1 = Pending w2 → App.attemptRecruit poolIndex w = Pending w2) ∧
  (∀ msg w2, Dice.roll die w1 = Threw msg w2 →
             App.attemptRecruit poolIndex w = Threw msg w2).
Proof.
  intros Hgs Hc Hrec Hdie Hroll1.
  destruct (roll_Resolved_state _ _ _ _ Hroll1) as (Hg1 & _). rewrite Hgs in Hg1.
  split; [intros w2 Hroll2|intros msg w2 Hroll2];
    unfold App.attemptRecruit; unfold bind at 1; unfold App.getState at 1;
    rewrite Hgs, Hc, decide_False by done;
    unfold bind at 1; rewrite Hroll1;
    unfold bind at 1; rewrite (the_state_Some w1 gs Hg1);
    unfold bind at 1; rewrite Hdie; unfold bind at 1; by rewrite Hroll2.
Qed.

(** Every bonus die is a die of [DIE_MAX]. *)
Lemma getInfluenceDie_known influence die :
  App.getInfluenceDie influence = Some die → is_Some (Dice.DIE_MAX !! die).
Proof.
  unfold App.getInfluenceDie. repeat case_decide; intros [= <-]; by eexists.
Qed.

(** No bonus die below 50 influence, and only there. *)
Lemma getInfluenceDie_None influence :
  App.getInfluenceDie influence = None ↔ influence < 50.
Proof.
  unfold App.getInfluenceDie. repeat case_decide; split; (done || lia).
Qed.

(** X1. [shuffle] always resolves with a reordering of the deck it is given,
    takes one random value per position but the first and changes nothing
    else; [returnCards] resolves with a reordering of the deck followed by
    the returned cards. *)
Theorem shuffle_permutes :
  (∀ deck w,
     ∃ deck',
       Deck.shuffle deck w =
         Resolved deck' (set_randomCalls (randomCalls w + (length deck - 1)) w) ∧
       deck' ≡ₚ deck) ∧
  (∀ deck cards w,
     ∃ deck',
       Deck.returnCards deck cards w =
         Resolved deck'
           (set_randomCalls (randomCalls w + (length (deck ++ cards) - 1)) w) ∧
       deck' ≡ₚ deck ++ cards).
Proof.
  split.
  - intros deck w. apply shuffle_from_Permutation.
  - intros deck cards w. apply shuffle_from_Permutation.
Qed.

(** No card occurs twice in the fresh deck. *)
Lemma createDeck_NoDup : NoDup Deck.createDeck.
Proof. apply (bool_decide_unpack _). by vm_compute. Qed.

(** The cards of the fresh deck are the suits of [SUITS] with the ranks of
    [RANKS], each with the value of its rank. *)
Lemma createDeck_elem c :
  c ∈ Deck.createDeck ↔
  suit c ∈ Deck.SUITS ∧ rank c ∈ Deck.RANKS ∧
  Deck.cardValue (rank c) = Some (value c).
Proof.
  split.
  - revert c. apply Forall_forall.
    apply (bool_decide_unpack _). by vm_compute.
  - destruct c as [s r v]. cbn. intros (Hs & Hr & Hv).
    unfold Deck.SUITS in Hs. unfold Deck.RANKS in Hr.
    set_unfold in Hs. set_unfold in Hr.
    destruct_or!; subst; vm_compute in Hv; injection Hv as <-.
    all: apply (bool_decide_unpack _); by vm_compute.
Qed.

(** X2. The fresh deck has 52 cards, none twice, and they are exactly the
    cards with a suit of [SUITS], a rank of [RANKS] and the value
    [cardValue] gives the rank. *)
Theorem createDeck_cards :
  length Deck.createDeck = 52%nat ∧
  NoDup Deck.createDeck ∧
  ∀ c, c ∈ Deck.createDeck ↔
       suit c ∈ Deck.SUITS ∧ rank c ∈ Deck.RANKS ∧
       Deck.cardValue (rank c) = Some (value c).
Proof.
  split; [reflexivity|]. split; [apply createDeck_NoDup|]. apply createDeck_elem.
Qed.

(** A log entry leaves the cards in play where they are. *)
Lemma all_cards_logged e gs : all_cards (logged e gs) = all_cards gs.
Proof. by destruct gs. Qed.

(** Recruiting reorders the cards in play. *)
Lemma all_cards_recruited poolIndex c gs :
  JS.array_get (recruitPool gs) poolIndex = Some c →
  all_cards (recruited poolIndex c gs) ≡ₚ all_cards gs.
Proof.
  intros [_ Hc]%array_get_Some.
  destruct gs as [? ? ? ? ? ? deck pool ini ops det ? ? ? ? ? ? ? ?].
  unfold all_cards, recruited. cbn in *.
  rewrite fmap_app. cbn. f_equiv.
  rewrite (delete_Permutation pool _ _ Hc) at 2.
  rewrite <- !app_assoc. cbn.
  rewrite (app_assoc (delete _ _)), <- Permutation_middle.
  by rewrite <- app_assoc.
Qed.

(** The drawn cards followed by the rest are the deck. *)
Lemma digitalDraw_app deck count :
  (Deck.digitalDraw deck count).1 ++ (Deck.digitalDraw deck count).2 = deck.
Proof. unfold Deck.digitalDraw. rewrite splice_front. apply take_drop. Qed.

(** Drawing reorders the cards in play. *)
Lemma all_cards_drawn gs drawn deck log :
  drawn ++ deck = recruitDeck gs →
  all_cards (set_turnLog log
              (set_recruitPool (recruitPool gs ++ drawn) (set_recruitDeck deck gs)))
  ≡ₚ all_cards gs.
Proof.
  intros Hsplit.
  destruct gs as [? ? ? ? ? ? deck0 pool ini ops det ? ? ? ? ? ? ? ?].
  unfold all_cards. cbn in *. subst.
  rewrite <- !app_assoc. rewrite (app_assoc deck pool).
  rewrite (Permutation_app_swap_app (deck ++ pool) drawn).
  by rewrite <- app_assoc.
Qed.

(** X3. Whatever becomes of its promise, [attemptRecruit] leaves a game state
    whose cards in play are the same cards as before, reordered; so does
    [drawToPool] when there is no deck provider. *)
Theorem operations_keep_the_cards w gs :
  App_gameState w = Some gs →
  (∀ poolIndex,
     ∃ gs', App_gameState (outcome_world (App.attemptRecruit poolIndex w)) = Some gs' ∧
            all_cards gs' ≡ₚ all_cards gs) ∧
  (Deck_provider w = None →
   ∀ count,
     ∃ gs', App_gameState (outcome_world (App.drawToPool count w)) = Some gs' ∧
            all_cards gs' ≡ₚ all_cards gs).
Proof.
  intros Hgs. split.
  - intros poolIndex.
    destruct (JS.array_get (recruitPool gs) poolIndex) as [c|] eqn:Hc.
    2: { rewrite (attemptRecruit_no_card _ _ _ Hgs Hc). cbn. eauto. }
    destruct (decide (length (operatives gs) = 0%nat ∧ leaderSkillLevel gs = 0))
      as [Hnone|Hsome].
    { rewrite (attemptRecruit_no_recruiter _ _ _ _ Hgs Hc Hnone).
      destruct w; cbn. eexists. split; [done|]. by rewrite all_cards_logged. }
    destruct (attemptRecruit_rolled _ _ _ _ Hgs Hc Hsome)
      as (w' & bonus & _ & _ & Hcases).
    destruct Hcases as [([->|[msg ->]] & Hgs' & _)|(tot & text & Hrun & Hgs' & _)];
      [cbn; eauto..|].
    cbv zeta in Hrun, Hgs'. rewrite Hrun. cbn. eexists. split; [done|].
    rewrite all_cards_logged. case_bool_decide; [|done].
    by apply all_cards_recruited.
  - intros Hdp count.
    destruct (drawToPool_digital count w gs Hgs Hdp) as (w' & entries & -> & _ & Hgs').
    cbn. eexists. split; [done|]. apply all_cards_drawn, digitalDraw_app.
Qed.

(** X3 at the game of the successful test. *)
Lemma operations_keep_the_cards_witness :
  App_gameState success_world = Some success_game ∧
  Deck_provider success_world = None ∧
  (∃ gs', App_gameState (outcome_world (App.attemptRecruit 0 success_world)) = Some gs' ∧
          all_cards gs' ≡ₚ all_cards success_game) ∧
  (∃ gs', App_gameState (outcome_world (App.drawToPool 3 success_world)) = Some gs' ∧
          all_cards gs' ≡ₚ all_cards success_game).
Proof.
  assert (App_gameState success_world = Some success_game) as H1 by reflexivity.
  assert (Deck_provider success_world = None) as H2 by reflexivity.
  split; [exact H1|]. split; [exact H2|]. split.
  - exact (proj1 (operations_keep_the_cards success_world success_game H1) 0).
  - exact (proj2 (operations_keep_the_cards success_world success_game H1) H2 3).
Defined.

(** [beginGame] resolves with the world [begun_world] describes, for some
    reordering of the fresh deck. *)
Lemma beginGame_world w0 resistance regime diceSelect cardsSelect :
  ∃ deck,
    deck ≡ₚ Deck.createDeck ∧
    App.beginGame resistance regime diceSelect cardsSelect w0 =
      Resolved tt
        (begun_world w0 resistance regime diceSelect cardsSelect deck).
Proof.
  unfold App.beginGame. unfold bind at 1.
  destruct (shuffle_from_Permutation (length Deck.createDeck - 1) Deck.createDeck w0)
    as (deck & Hrun & Hperm).
  unfold Deck.shuffle. rewrite Hrun. exists deck. split; [done|].
  unfold bind at 1. unfold modify_world at 1.
  unfold bind at 1. unfold App.syncInputProviders.
  unfold bind at 1. unfold App.getState at 1.
  destruct w0 as [dp kp scr g ls pl en rc dr cr].
  cbn [set_randomCalls set_App_gameState App_gameState].
  unfold bind, get_world, Dice.setProvider, Deck.setProvider, modify_world,
    GameState.save, App.showScreen, begun_world, begun_state.
  unfold dice_provider_for, deck_provider_for.
  destruct diceSelect as [dv|], cardsSelect as [cv|]; cbn -[insert Nat.add Nat.sub];
    repeat case_decide; subst; try done; cbn -[insert Nat.add Nat.sub]; reflexivity.
Qed.

(** The shape of the reachable worlds: no deck provider, no operative, no
    leader skill, no initiate, nobody detained, and the pool followed by
    the deck a reordering of the fresh deck. *)
Lemma reachable_shape w :
  reachable w →
  Deck_provider w = None ∧
  ∃ gs, App_gameState w = Some gs ∧
        operatives gs = [] ∧ leaderSkillLevel gs = 0 ∧
        initiates gs = [] ∧ detainedOperatives gs = [] ∧
        recruitPool gs ++ recruitDeck gs ≡ₚ Deck.createDeck.
Proof.
  induction 1 as [w0 res reg dsel csel Hmode
                 |w count _ (Hdp & gs & Hgs & Hops & Hskill & Hini & Hdet & Hperm)
                 |w poolIndex _ (Hdp & gs & Hgs & Hops & Hskill & Hini & Hdet & Hperm)].
  - destruct (beginGame_world w0 res reg dsel csel) as (deck & Hperm & ->).
    cbn. split.
    + unfold deck_provider_for. rewrite decide_False; [done|].
      destruct csel as [cv|]; cbn; [congruence|done].
    + eexists. split; [done|]. by cbn.
  - destruct (drawToPool_digital count w gs Hgs Hdp) as (w' & entries & -> & Hdp' & Hgs').
    pose proof (digitalDraw_app (recruitDeck gs) count) as Happ.
    destruct (Deck.digitalDraw (recruitDeck gs) count) as [drawn rest].
    cbn. split; [done|]. eexists. split; [done|].
    destruct gs; cbn in *. split_and!; try done.
    by rewrite <- app_assoc, Happ.
  - destruct (JS.array_get (recruitPool gs) poolIndex) as [c|] eqn:Hc.
    2: { rewrite (attemptRecruit_no_card _ _ _ Hgs Hc). cbn. split; [done|].
         by exists gs. }
    rewrite (attemptRecruit_no_recruiter _ _ _ _ Hgs Hc) by (by rewrite Hops).
    destruct w, gs; cbn in *. split; [done|]. eexists. by split.
Qed.

(** X4. In every world reachable from [beginGame] with digital cards, the five
    collections together hold the cards of the fresh deck, each once. *)
Theorem reachable_cards_are_the_deck w :
  reachable w →
  ∃ gs, App_gameState w = Some gs ∧
        all_cards gs ≡ₚ Deck.createDeck ∧
        NoDup (all_cards gs).
Proof.
  intros (_ & gs & Hgs & Hops & _ & Hini & Hdet & Hperm)%reachable_shape.
  assert (all_cards gs ≡ₚ Deck.createDeck) as Hall.
  { unfold all_cards. rewrite Hops, Hini, Hdet. cbn. rewrite app_nil_r.
    by rewrite Permutation_app_comm. }
  exists gs. split; [done|]. split; [done|].
  rewrite Hall. apply createDeck_NoDup.
Qed.

(** X4 at a game begun, three cards drawn and one attempt made. *)
Lemma reachable_cards_are_the_deck_witness :
  reachable played_world ∧
  ∃ gs, App_gameState played_world = Some gs ∧
        all_cards gs ≡ₚ Deck.createDeck ∧
        NoDup (all_cards gs).
Proof.
  assert (reachable played_world) as H.
  { unfold played_world. apply reach_recruit, reach_draw, reach_begin. discriminate. }
  split; [exact H|]. exact (reachable_cards_are_the_deck played_world H).
Defined.

(** [drawToPool] once [Deck.draw] has resolved: the deck is what the draw left,
    the pool has the drawn cards at its end, the log one entry per card,
    and the state is saved. *)
Lemma drawToPool_resolved count w gs drawn deck w1 :
  App_gameState w = Some gs →
  Deck.draw (recruitDeck gs) count w = Resolved (drawn, deck) w1 →
  ∃ entries,
    length entries = length drawn ∧
    Forall (λ e, turn e = currentTurn gs) entries ∧
    App.drawToPool count w =
      Resolved tt
        (set_localStorage
           (<[current_slot :=
                set_turnLog (turnLog gs ++ entries)
                  (set_recruitPool (recruitPool gs ++ drawn) (set_recruitDeck deck gs))]>
              (localStorage w))
           (set_App_gameState
              (Some (set_turnLog (turnLog gs ++ entries)
                       (set_recruitPool (recruitPool gs ++ drawn)
                          (set_recruitDeck deck gs))))
              (set_cardRequests (cardRequests w ++ [count]) w))).
Proof.
  intros Hgs Hdraw.
  assert (w1 = set_cardRequests (cardRequests w ++ [count]) w) as ->.
  { unfold Deck.draw in Hdraw. destruct (Deck_provider w) as [p|].
    - destruct (p _ count); by inversion Hdraw.
    - by inversion Hdraw. }
  unfold App.drawToPool. unfold bind at 1. unfold App.getState at 1.
  rewrite Hgs. unfold bind at 1. rewrite Hdraw.
  unfold bind at 1. unfold App.modify_state at 1, bind at 1.
  destruct w as [dp kp scr g ls pl en rc dr cr]. cbn in Hgs. subst g.
  cbn [App.the_state set_cardRequests App_gameState modify_world set_App_gameState].
  unfold bind at 1. unfold App.modify_state at 1, bind at 1.
  cbn [App.the_state set_cardRequests App_gameState modify_world set_App_gameState].
  unfold bind at 1.
  erewrite for_each_log; [|done].
  cbn [App.the_state set_cardRequests App_gameState modify_world set_App_gameState bind].
  unfold GameState.save, modify_world.
  destruct gs; cbn -[insert].
  eexists. split; [|split; [|reflexivity]].
  - by rewrite length_fmap.
  - by apply Forall_fmap, Forall_true.
Qed.

(** Without a provider [Deck.draw] is the digital draw. *)
Lemma draw_digital deck count w :
  Deck_provider w = None →
  Deck.draw deck count w =
    Resolved (Deck.digitalDraw deck count) (set_cardRequests (cardRequests w ++ [count]) w).
Proof. unfold Deck.draw. by intros ->. Qed.

(** X6. Without a deck provider, [drawToPool(count)] resolves: the first
    min(count, |deck|) cards leave the deck for the end of the pool, in
    order, the log gets one entry per card stamped with the current turn,
    and the state is saved in the slot 'current'. *)
Theorem drawToPool_digital_moves_front (count : nat) w gs :
  App_gameState w = Some gs →
  Deck_provider w = None →
  ∃ w' gs' entries,
    App.drawToPool (Z.of_nat count) w = Resolved tt w' ∧
    App_gameState w' = Some gs' ∧
    gs' = set_turnLog (turnLog gs ++ entries)
            (set_recruitPool
               (recruitPool gs ++ take (count `min` length (recruitDeck gs)) (recruitDeck gs))
               (set_recruitDeck
                  (drop (count `min` length (recruitDeck gs)) (recruitDeck gs)) gs)) ∧
    length entries = (count `min` length (recruitDeck gs))%nat ∧
    Forall (λ e, turn e = currentTurn gs) entries ∧
    localStorage w' !! current_slot = Some gs'.
Proof.
  intros Hgs Hdp.
  pose proof (draw_digital (recruitDeck gs) (Z.of_nat count) w Hdp) as Hdraw.
  rewrite digitalDraw_take_drop in Hdraw.
  destruct (drawToPool_resolved _ _ _ _ _ _ Hgs Hdraw) as (entries & Hlen & Hturn & Hrun).
  rewrite length_take in Hlen.
  eexists _, _, entries. split; [exact Hrun|].
  split; [by destruct w|]. split; [done|]. split; [lia|]. split; [done|].
  destruct w; cbn -[insert]. by rewrite lookup_insert_eq.
Qed.

(** X6 at three cards drawn from a full deck. *)
Lemma drawToPool_digital_moves_front_witness :
  App_gameState success_world = Some success_game ∧
  Deck_provider success_world = None ∧
  ∃ w' gs' entries,
    App.drawToPool (Z.of_nat 3) success_world = Resolved tt w' ∧
    App_gameState w' = Some gs' ∧
    gs' = set_turnLog (turnLog success_game ++ entries)
            (set_recruitPool
               (recruitPool success_game ++
                take (3 `min` length (recruitDeck success_game)) (recruitDeck success_game))
               (set_recruitDeck
                  (drop (3 `min` length (recruitDeck success_game))
                     (recruitDeck success_game)) success_game)) ∧
    length entries = (3 `min` length (recruitDeck success_game))%nat ∧
    Forall (λ e, turn e = currentTurn success_game) entries ∧
    localStorage w' !! current_slot = Some gs'.
Proof.
  assert (App_gameState success_world = Some success_game) as H1 by reflexivity.
  assert (Deck_provider success_world = None) as H2 by reflexivity.
  split; [exact H1|]. split; [exact H2|].
  exact (drawToPool_digital_moves_front 3 success_world success_game H1 H2).
Defined.

(** X7. With a deck provider, [drawToPool] leaves the deck as it is and appends
    the provider's cards to the pool, so the count of cards in play grows
    by their number; while the provider does not answer, the call stays
    pending. *)
Theorem drawToPool_with_provider_keeps_deck count w gs provider :
  App_gameState w = Some gs →
  Deck_provider w = Some provider →
  match provider (length (cardRequests w)) count with
  | Some drawn =>
      ∃ w' gs' entries,
        App.drawToPool count w = Resolved tt w' ∧
        App_gameState w' = Some gs' ∧
        recruitDeck gs' = recruitDeck gs ∧
        recruitPool gs' = recruitPool gs ++ drawn ∧
        turnLog gs' = turnLog gs ++ entries ∧
        length entries = length drawn ∧
        card_count gs' = (card_count gs + length drawn)%nat
  | None =>
      App.drawToPool count w =
        Pending (set_cardRequests (cardRequests w ++ [count]) w)
  end.
Proof.
  intros Hgs Hdp.
  destruct (provider (length (cardRequests w)) count) as [drawn|] eqn:Hp.
  - assert (Deck.draw (recruitDeck gs) count w =
            Resolved (drawn, recruitDeck gs)
              (set_cardRequests (cardRequests w ++ [count]) w)) as Hdraw.
    { unfold Deck.draw. by rewrite Hdp, Hp. }
    destruct (drawToPool_resolved _ _ _ _ _ _ Hgs Hdraw) as (entries & Hlen & _ & Hrun).
    eexists _, (set_turnLog (turnLog gs ++ entries)
                  (set_recruitPool (recruitPool gs ++ drawn)
                     (set_recruitDeck (recruitDeck gs) gs))), entries.
    split; [exact Hrun|].
    destruct w, gs; unfold card_count; cbn -[insert length].
    split_and!; try done. rewrite length_app. lia.
  - unfold App.drawToPool, bind, App.getState. rewrite Hgs.
    unfold Deck.draw. by rewrite Hdp, Hp.
Qed.

(** X7 at the card picker with the 2 of hearts picked twice. *)
Lemma drawToPool_with_provider_keeps_deck_witness :
  App_gameState physical_cards_world = Some success_game ∧
  Deck_provider physical_cards_world = Some (UI.cardInput_provider idle_player) ∧
  ∃ w' gs' entries,
    App.drawToPool 2 physical_cards_world = Resolved tt w' ∧
    App_gameState w' = Some gs' ∧
    recruitDeck gs' = recruitDeck success_game ∧
    recruitPool gs' =
      recruitPool success_game ++ [mkCard "hearts" "2" 2; mkCard "hearts" "2" 2] ∧
    turnLog gs' = turnLog success_game ++ entries ∧
    length entries = 2%nat ∧
    card_count gs' = (card_count success_game + 2)%nat.
Proof.
  assert (App_gameState physical_cards_world = Some success_game) as H1 by reflexivity.
  assert (Deck_provider physical_cards_world = Some (UI.cardInput_provider idle_player))
    as H2 by reflexivity.
  split; [exact H1|]. split; [exact H2|].
  exact (drawToPool_with_provider_keeps_deck 2 physical_cards_world success_game _ H1 H2).
Defined.

(** [Deck.draw] resolves or stays pending, and records its request. *)
Lemma draw_cases deck count w :
  (∃ drawn deck',
     Deck.draw deck count w =
       Resolved (drawn, deck') (set_cardRequests (cardRequests w ++ [count]) w)) ∨
  Deck.draw deck count w = Pending (set_cardRequests (cardRequests w ++ [count]) w).
Proof.
  unfold Deck.draw. destruct (Deck_provider w) as [p|].
  - destruct (p _ count); eauto.
  - destruct (Deck.digitalDraw deck count). eauto.
Qed.

(** X8. [attemptRecruit] and [drawToPool] only append to the turn log, entries
    of the current turn: [attemptRecruit] at most one, [drawToPool] one
    per card that joins the pool. *)
Theorem turn_log_only_grows w gs :
  App_gameState w = Some gs →
  (∀ poolIndex,
     ∃ gs' added,
       App_gameState (outcome_world (App.attemptRecruit poolIndex w)) = Some gs' ∧
       turnLog gs' = turnLog gs ++ added ∧
       (length added ≤ 1)%nat ∧
       Forall (λ e, turn e = currentTurn gs) added) ∧
  (∀ count,
     ∃ gs' added,
       App_gameState (outcome_world (App.drawToPool count w)) = Some gs' ∧
       turnLog gs' = turnLog gs ++ added ∧
       length (recruitPool gs') = (length (recruitPool gs) + length added)%nat ∧
       Forall (λ e, turn e = currentTurn gs) added).
Proof.
  intros Hgs. split.
  - intros poolIndex.
    destruct (JS.array_get (recruitPool gs) poolIndex) as [c|] eqn:Hc.
    2: { rewrite (attemptRecruit_no_card _ _ _ Hgs Hc). cbn.
         exists gs, []. rewrite app_nil_r. split_and!; auto. }
    destruct (decide (length (operatives gs) = 0%nat ∧ leaderSkillLevel gs = 0))
      as [Hnone|Hsome].
    { rewrite (attemptRecruit_no_recruiter _ _ _ _ Hgs Hc Hnone).
      exists (logged (mkLogEntry (currentTurn gs)
                        "No operatives available to attempt recruitment.") gs),
             [mkLogEntry (currentTurn gs)
                "No operatives available to attempt recruitment."].
      destruct w, gs; cbn. split_and!; try done.
      by repeat constructor. }
    destruct (attemptRecruit_rolled _ _ _ _ Hgs Hc Hsome)
      as (w' & bonus & _ & _ & Hcases).
    destruct Hcases as [([->|[msg ->]] & Hgs' & _)|(tot & text & Hrun & Hgs' & _)].
    + cbn. exists gs, []. rewrite app_nil_r. split_and!; auto.
    + cbn. exists gs, []. rewrite app_nil_r. split_and!; auto.
    + cbv zeta in Hrun, Hgs'. rewrite Hrun. cbn.
      eexists _, [_]. split; [exact Hgs'|].
      destruct gs; split_and!; [by case_bool_decide|done|by repeat constructor].
  - intros count.
    destruct (draw_cases (recruitDeck gs) count w) as [(drawn & deck' & Hdraw)|Hdraw].
    + destruct (drawToPool_resolved _ _ _ _ _ _ Hgs Hdraw)
        as (entries & Hlen & Hturn & ->).
      eexists (set_turnLog (turnLog gs ++ entries)
                 (set_recruitPool (recruitPool gs ++ drawn) (set_recruitDeck deck' gs))),
              entries.
      destruct w, gs; cbn -[insert length]. split_and!; try done.
      rewrite length_app. lia.
    + unfold App.drawToPool, bind, App.getState. rewrite Hgs, Hdraw. cbn.
      exists gs, []. rewrite app_nil_r. destruct w; cbn in *.
      split_and!; auto.
Qed.

(** X8 at the game of the successful test. *)
Lemma turn_log_only_grows_witness :
  App_gameState success_world = Some success_game ∧
  ∃ gs' added,
    App_gameState (outcome_world (App.attemptRecruit 0 success_world)) = Some gs' ∧
    turnLog gs' = turnLog success_game ++ added ∧
    (length added ≤ 1)%nat ∧
    Forall (λ e, turn e = currentTurn success_game) added.
Proof.
  assert (App_gameState success_world = Some success_game) as H1 by reflexivity.
  split; [exact H1|].
  exact (proj1 (turn_log_only_grows success_world success_game H1) 0).
Defined.

(** So does a roll that stays pending. *)
Lemma roll_Pending_state dieType w w1 :
  Dice.roll dieType w = Pending w1 →
  App_gameState w1 = App_gameState w ∧ localStorage w1 = localStorage w ∧
  diceRequests w1 = diceRequests w ++ [dieType].
Proof.
  intros Hroll.
  destruct (roll_cases dieType w) as (w' & Hs & Hg & Hl & Hd & [E|[[msg E]|[x E]]]);
    rewrite Hroll in E; try discriminate.
  by injection E as <-.
Qed.

(** X9. With a target card and a recruiter, once the d10 has delivered
    [base]: without a bonus die the attempt resolves and succeeds exactly
    when [base + leaderSkillLevel >= card.value]; with a bonus die that
    delivers [bonus], exactly when
    [base + bonus + leaderSkillLevel >= card.value], the d10 being
    requested first and the bonus die second. *)
Theorem recruit_succeeds_iff_total_reaches_value poolIndex w gs c base w1 :
  App_gameState w = Some gs →
  JS.array_get (recruitPool gs) poolIndex = Some c →
  ¬ (length (operatives gs) = 0%nat ∧ leaderSkillLevel gs = 0) →
  Dice.roll "d10" w = Resolved base w1 →
  match App.getInfluenceDie (influence gs) with
  | None =>
      ∃ w',
        App.attemptRecruit poolIndex w =
          Resolved (App.Rolled (bool_decide (base + leaderSkillLevel gs >= value c))) w' ∧
        diceRequests w' = diceRequests w ++ ["d10"]
  | Some die =>
      ∀ bonus w2,
        Dice.roll die w1 = Resolved bonus w2 →
        ∃ w',
          App.attemptRecruit poolIndex w =
            Resolved (App.Rolled
                        (bool_decide (base + bonus + leaderSkillLevel gs >= value c))) w' ∧
          diceRequests w' = diceRequests w ++ ["d10"; die]
  end.
Proof.
  intros Hgs Hc Hrec Hroll1.
  destruct (roll_Resolved_state _ _ _ _ Hroll1) as (_ & _ & _ & Hd1).
  destruct (App.getInfluenceDie (influence gs)) as [die|] eqn:Hdie.
  - intros bonus w2 Hroll2.
    destruct (roll_Resolved_state _ _ _ _ Hroll2) as (_ & _ & _ & Hd2).
    destruct (attemptRecruit_bonus_die _ _ _ _ _ _ _ _ _ Hgs Hc Hrec Hdie Hroll1 Hroll2)
      as [text ->].
    eexists. split; [done|]. destruct w2; cbn in *. by rewrite Hd2, Hd1, <- app_assoc.
  - destruct (attemptRecruit_single_die _ _ _ _ _ _ Hgs Hc Hrec Hdie Hroll1) as [text ->].
    eexists. split; [done|]. by destruct w1.
Qed.

(** X9 at the ace of diamonds with 120 influence, leader skill 5 and the
    rolls 6 and 5. *)
Lemma recruit_succeeds_iff_total_reaches_value_witness :
  App_gameState influential_world = Some (set_influence 120 failure_game) ∧
  JS.array_get (recruitPool (set_influence 120 failure_game)) 0 = Some ace_of_diamonds ∧
  ¬ (length (operatives (set_influence 120 failure_game)) = 0%nat ∧
     leaderSkillLevel (set_influence 120 failure_game) = 0) ∧
  Dice.roll "d10" influential_world =
    Resolved 6 (set_diceRequests ["d10"] influential_world) ∧
  Dice.roll "d6" (set_diceRequests ["d10"] influential_world) =
    Resolved 5 (set_diceRequests ["d10"; "d6"] influential_world) ∧
  ∃ w',
    App.attemptRecruit 0 influential_world = Resolved (App.Rolled true) w' ∧
    diceRequests w' = ["d10"; "d6"].
Proof.
  assert (App_gameState influential_world = Some (set_influence 120 failure_game))
    as H1 by reflexivity.
  assert (JS.array_get (recruitPool (set_influence 120 failure_game)) 0
          = Some ace_of_diamonds) as H2 by reflexivity.
  assert (¬ (length (operatives (set_influence 120 failure_game)) = 0%nat ∧
             leaderSkillLevel (set_influence 120 failure_game) = 0)) as H3
    by (intros [H _]; discriminate H).
  assert (Dice.roll "d10" influential_world =
          Resolved 6 (set_diceRequests ["d10"] influential_world)) as H4 by reflexivity.
  assert (Dice.roll "d6" (set_diceRequests ["d10"] influential_world) =
          Resolved 5 (set_diceRequests ["d10"; "d6"] influential_world)) as H5
    by reflexivity.
  split_and!; [exact H1|exact H2|exact H3|exact H4|exact H5|].
  exact (recruit_succeeds_iff_total_reaches_value 0 influential_world _ _ 6 _
           H1 H2 H3 H4 5 _ H5).
Defined.

(** X10. While the d10 is pending the attempt is pending, the bonus die is not
    requested, and the game state and the store are untouched; the same
    while the bonus die is pending after the d10. *)
Theorem recruit_waits_for_each_die poolIndex w gs c :
  App_gameState w = Some gs →
  JS.array_get (recruitPool gs) poolIndex = Some c →
  ¬ (length (operatives gs) = 0%nat ∧ leaderSkillLevel gs = 0) →
  (∀ w1,
     Dice.roll "d10" w = Pending w1 →
     App.attemptRecruit poolIndex w = Pending w1 ∧
     App_gameState w1 = Some gs ∧ localStorage w1 = localStorage w ∧
     diceRequests w1 = diceRequests w ++ ["d10"]) ∧
  (∀ die base w1 w2,
     App.getInfluenceDie (influence gs) = Some die →
     Dice.roll "d10" w = Resolved base w1 →
     Dice.roll die w1 = Pending w2 →
     App.attemptRecruit poolIndex w = Pending w2 ∧
     App_gameState w2 = Some gs ∧ localStorage w2 = localStorage w ∧
     diceRequests w2 = diceRequests w ++ ["d10"; die]).
Proof.
  intros Hgs Hc Hrec. split.
  - intros w1 Hroll.
    destruct (attemptRecruit_base_unresolved _ _ _ _ Hgs Hc Hrec) as [Hp _].
    destruct (roll_Pending_state _ _ _ Hroll) as (Hg & Hl & Hd).
    split; [by apply Hp|]. split_and!; congruence.
  - intros die base w1 w2 Hdie Hroll1 Hroll2.
    destruct (attemptRecruit_bonus_unresolved _ _ _ _ _ _ _ Hgs Hc Hrec Hdie Hroll1)
      as [Hp _].
    destruct (roll_Resolved_state _ _ _ _ Hroll1) as (Hg1 & Hl1 & _ & Hd1).
    destruct (roll_Pending_state _ _ _ Hroll2) as (Hg2 & Hl2 & Hd2).
    split; [by apply Hp|]. split_and!; try congruence.
    by rewrite Hd2, Hd1, <- app_assoc.
Qed.

(** X10 at a dice modal nobody answers. *)
Lemma recruit_waits_for_each_die_witness :
  App_gameState waiting_world = Some success_game ∧
  JS.array_get (recruitPool success_game) 0 = Some three_of_clubs ∧
  ¬ (length (operatives success_game) = 0%nat ∧ leaderSkillLevel success_game = 0) ∧
  Dice.roll "d10" waiting_world = Pending (set_diceRequests ["d10"] waiting_world) ∧
  App.attemptRecruit 0 waiting_world = Pending (set_diceRequests ["d10"] waiting_world).
Proof.
  assert (App_gameState waiting_world = Some success_game) as H1 by reflexivity.
  assert (JS.array_get (recruitPool success_game) 0 = Some three_of_clubs) as H2
    by reflexivity.
  assert (¬ (length (operatives success_game) = 0%nat ∧
             leaderSkillLevel success_game = 0)) as H3
    by (intros [H _]; discriminate H).
  assert (Dice.roll "d10" waiting_world = Pending (set_diceRequests ["d10"] waiting_world))
    as H4 by reflexivity.
  split_and!; [exact H1|exact H2|exact H3|exact H4|].
  exact (proj1 (proj1 (recruit_waits_for_each_die 0 waiting_world _ _ H1 H2 H3) _ H4)).
Defined.

(** The automatic roll of a known die resolves in range and leaves no
    provider. *)
Lemma roll_digital_resolves dieType max w :
  Dice.DIE_MAX !! dieType = Some max →
  Dice_provider w = None →
  ∃ v w', Dice.roll dieType w = Resolved v w' ∧ 1 ≤ v ≤ max ∧ Dice_provider w' = None.
Proof.
  intros Hmax Hdp. unfold Dice.roll. rewrite Hdp.
  destruct (digitalRoll_range dieType max
              (set_diceRequests (diceRequests w ++ [dieType]) w) Hmax)
    as (v & w' & Hroll & Hv).
  exists v, w'. split; [done|]. split; [done|].
  assert (Dice.roll dieType w = Resolved v w') as Hr
    by (unfold Dice.roll; by rewrite Hdp).
  destruct (roll_Resolved_state _ _ _ _ Hr) as (_ & _ & (Hsame & _) & _). congruence.
Qed.

(** X11. Without a dice provider [attemptRecruit] always resolves; without a
    deck provider [drawToPool] always resolves; [beginGame] always
    resolves. *)
Theorem digital_calls_always_resolve :
  (∀ poolIndex w,
     Dice_provider w = None → ∃ a w', App.attemptRecruit poolIndex w = Resolved a w') ∧
  (∀ count w,
     Deck_provider w = None → ∃ w', App.drawToPool count w = Resolved tt w') ∧
  (∀ resistance regime diceSelect cardsSelect w,
     ∃ w', App.beginGame resistance regime diceSelect cardsSelect w = Resolved tt w').
Proof.
  split_and!.
  - intros poolIndex w Hdp.
    destruct (App_gameState w) as [gs|] eqn:Hgs.
    2: { rewrite (attemptRecruit_no_state _ _ Hgs). eauto. }
    destruct (JS.array_get (recruitPool gs) poolIndex) as [c|] eqn:Hc.
    2: { rewrite (attemptRecruit_no_card _ _ _ Hgs Hc). eauto. }
    destruct (decide (length (operatives gs) = 0%nat ∧ leaderSkillLevel gs = 0))
      as [Hnone|Hsome].
    { rewrite (attemptRecruit_no_recruiter _ _ _ _ Hgs Hc Hnone). eauto. }
    destruct (roll_digital_resolves "d10" 10 w eq_refl Hdp)
      as (base & w1 & Hroll1 & _ & Hdp1).
    destruct (App.getInfluenceDie (influence gs)) as [die|] eqn:Hdie.
    + destruct (getInfluenceDie_known _ _ Hdie) as [max Hmax].
      destruct (roll_digital_resolves die max w1 Hmax Hdp1)
        as (bonus & w2 & Hroll2 & _).
      destruct (attemptRecruit_bonus_die _ _ _ _ _ _ _ _ _ Hgs Hc Hsome Hdie Hroll1 Hroll2)
        as [text ->]. eauto.
    + destruct (attemptRecruit_single_die _ _ _ _ _ _ Hgs Hc Hsome Hdie Hroll1)
        as [text ->]. eauto.
  - intros count w Hdp.
    destruct (App_gameState w) as [gs|] eqn:Hgs.
    + destruct (drawToPool_digital count w gs Hgs Hdp) as (w' & _ & -> & _). eauto.
    + unfold App.drawToPool, bind, App.getState. rewrite Hgs. eauto.
  - intros resistance regime diceSelect cardsSelect w.
    destruct (beginGame_world w resistance regime diceSelect cardsSelect)
      as (deck & _ & ->). eauto.
Qed.

(** X11 at a game without providers. *)
Lemma digital_calls_always_resolve_witness :
  Dice_provider digital_world = None ∧
  ∃ a w', App.attemptRecruit 0 digital_world = Resolved a w'.
Proof.
  assert (Dice_provider digital_world = None) as H by reflexivity.
  split; [exact H|]. exact (proj1 digital_calls_always_resolve 0 digital_world H).
Defined.

(** X12. Without a provider, the roll of a die type that is neither a key of
    [DIE_MAX] nor a name inherited from [Object.prototype] is rejected with
    'Unknown die type: ' and the name, and takes no random value. *)
Theorem unknown_die_is_rejected dieType w :
  Dice.DIE_MAX !! dieType = None →
  dieType ∉ JS.Object_prototype_names →
  Dice_provider w = None →
  Dice.roll dieType w =
    Threw ("Unknown die type: " +:+ dieType)
          (set_diceRequests (diceRequests w ++ [dieType]) w).
Proof.
  intros Hmax _ Hdp. unfold Dice.roll, Dice.digitalRoll. by rewrite Hdp, Hmax.
Qed.

(** X12 at a d7. *)
Lemma unknown_die_is_rejected_witness :
  Dice.DIE_MAX !! "d7" = None ∧
  ("d7" ∉ JS.Object_prototype_names) ∧
  Dice_provider fresh_world = None ∧
  Dice.roll "d7" fresh_world =
    Threw "Unknown die type: d7" (set_diceRequests ["d7"] fresh_world).
Proof.
  assert (Dice.DIE_MAX !! "d7" = None) as H1 by reflexivity.
  assert ("d7" ∉ JS.Object_prototype_names) as H2
    by (apply (bool_decide_unpack _); vm_compute; exact I).
  assert (Dice_provider fresh_world = None) as H3 by reflexivity.
  split; [exact H1|]. split; [exact H2|]. split; [exact H3|].
  exact (unknown_die_is_rejected "d7" fresh_world H1 H2 H3).
Defined.

(** X13. For a die of the table, the dice modal resolves with the first entry
    that is a number of [1, max]; every entry before it was rejected; and
    when all entries are rejected it stays open. *)
Theorem diceInput_first_valid entries dieType max :
  Dice.DIE_MAX !! dieType = Some max →
  match UI.diceInput entries dieType with
  | Some v =>
      ∃ before after,
        entries = before ++ Some v :: after ∧
        Forall (rejected_entry max) before ∧
        1 ≤ v ≤ max
  | None => Forall (rejected_entry max) entries
  end.
Proof.
  intros Hmax. unfold UI.diceInput, Dice.getDieMax. rewrite Hmax.
  induction entries as [|e rest IH]; cbn [UI.resolve_first]; [done|].
  destruct (UI.submit (Some max) e) as [v|] eqn:He.
  - exists [], rest. apply submit_range in He as Hv.
    unfold UI.submit in He. destruct e as [x|]; [|done].
    repeat case_decide; try done. injection He as ->. split_and!; try done; lia.
  - assert (rejected_entry max e) as Hrej.
    { unfold UI.submit in He. destruct e as [x|]; [|done]. cbn.
      repeat case_decide; try done; lia. }
    destruct (UI.resolve_first (Some max) rest) as [v|].
    + destruct IH as (before & after & -> & Hbefore & Hv).
      exists (e :: before), after. split; [done|]. split; [by constructor|done].
    + by constructor.
Qed.

(** X13 at a d6 and the entries 9, nothing, 0, 4. *)
Lemma diceInput_first_valid_witness :
  Dice.DIE_MAX !! "d6" = Some 6 ∧
  ∃ before after,
    [Some 9; None; Some 0; Some 4] = before ++ Some 4 :: after ∧
    Forall (rejected_entry 6) before ∧
    1 ≤ 4 ≤ 6.
Proof.
  assert (Dice.DIE_MAX !! "d6" = Some 6) as H by reflexivity.
  split; [exact H|].
  exact (diceInput_first_valid [Some 9; None; Some 0; Some 4] "d6" 6 H).
Defined.

(** X14. The card picker returns one card per requested card, in the order
    picked, and none for a negative count; when the picks are among the
    suits and ranks it offers, every card is a card of the fresh deck;
    nothing keeps the same card from being picked twice. *)
Theorem cardInput_cards picks :
  (∀ count : nat,
     length (UI.cardInput picks (Z.of_nat count)) = count ∧
     ∀ i, (i < count)%nat →
          UI.cardInput picks (Z.of_nat count) !! i =
            Some (mkCard (picks i).1 (picks i).2 (Deck.value_of (picks i).2))) ∧
  (∀ n : nat, UI.cardInput picks (- Z.of_nat n) = []) ∧
  ((∀ i, (picks i).1 ∈ Deck.SUITS ∧ (picks i).2 ∈ Deck.RANKS) →
   ∀ count c, c ∈ UI.cardInput picks count → c ∈ Deck.createDeck) ∧
  (∀ count, 2 ≤ count → picks 1%nat = picks 0%nat → ¬ NoDup (UI.cardInput picks count)).
Proof.
  unfold UI.cardInput. split_and!.
  - intros count. rewrite Nat2Z.id. split; [by rewrite length_fmap, length_seq|].
    intros i Hi. rewrite list_lookup_fmap, lookup_seq_lt by done. cbn.
    unfold UI.pickOneCard. by destruct (picks i).
  - intros n. by replace (Z.to_nat (- Z.of_nat n)) with 0%nat by lia.
  - intros Hpicks count c (i & -> & _)%list_elem_of_fmap.
    destruct (Hpicks i) as [Hs Hr]. unfold UI.pickOneCard.
    destruct (picks i) as [s r]. cbn [fst snd] in *.
    apply createDeck_elem. cbn [suit rank value]. split_and!; [done|done|].
    unfold Deck.cardValue, Deck.value_of.
    pose proof RANKS_valued as Hval. rewrite Forall_forall in Hval.
    by destruct (Hval r Hr) as [v ->].
  - intros count Hcount Hsame Hnodup.
    destruct (Z.to_nat count) as [|[|n]] eqn:Hn; [lia|lia|].
    cbn in Hnodup. rewrite Hsame in Hnodup.
    apply NoDup_cons in Hnodup as [Hnotin _]. apply Hnotin. by left.
Qed.

(** X14 at the 2 of hearts picked twice. *)
Lemma cardInput_cards_witness :
  (∀ i, (cardPicks idle_player 0%nat i).1 ∈ Deck.SUITS ∧
        (cardPicks idle_player 0%nat i).2 ∈ Deck.RANKS) ∧
  2 ≤ 2 ∧
  cardPicks idle_player 0%nat 1%nat = cardPicks idle_player 0%nat 0%nat ∧
  (∀ c, c ∈ UI.cardInput (cardPicks idle_player 0%nat) 2 → c ∈ Deck.createDeck) ∧
  ¬ NoDup (UI.cardInput (cardPicks idle_player 0%nat) 2).
Proof.
  assert (∀ i, (cardPicks idle_player 0%nat i).1 ∈ Deck.SUITS ∧
               (cardPicks idle_player 0%nat i).2 ∈ Deck.RANKS) as H1.
  { intros i. cbn. split; apply (bool_decide_unpack _); by vm_compute. }
  assert (2 ≤ 2) as H2 by lia.
  assert (cardPicks idle_player 0%nat 1%nat = cardPicks idle_player 0%nat 0%nat) as H3
    by reflexivity.
  split_and!; [exact H1|exact H2|exact H3|..].
  - exact (proj1 (proj2 (proj2 (cardInput_cards (cardPicks idle_player 0%nat)))) H1 2).
  - exact (proj2 (proj2 (proj2 (cardInput_cards (cardPicks idle_player 0%nat)))) 2 H2 H3).
Defined.

(** Different slot names give different keys. *)
Lemma slot_key_inj a b :
  GameState.STORAGE_PREFIX +:+ a = GameState.STORAGE_PREFIX +:+ b → a = b.
Proof. apply (inj (String.app GameState.STORAGE_PREFIX)). Qed.

(** X15. After [save(state, slot)], [load(slot)] returns that state and
    [load] of any other slot what it returned before; a later save to the
    slot replaces the state; after [deleteSave(slot)], [load(slot)]
    returns null. *)
Theorem save_load_round_trip state slot w :
  GameState.load slot (outcome_world (GameState.save state slot w)) =
    Resolved (Some state) (outcome_world (GameState.save state slot w)) ∧
  (∀ other,
     other ≠ slot →
     GameState.load other (outcome_world (GameState.save state slot w)) =
       Resolved (localStorage w !! (GameState.STORAGE_PREFIX +:+ other))
                (outcome_world (GameState.save state slot w))) ∧
  (∀ newer,
     GameState.load slot
       (outcome_world (GameState.save newer slot
          (outcome_world (GameState.save state slot w)))) =
     Resolved (Some newer)
       (outcome_world (GameState.save newer slot
          (outcome_world (GameState.save state slot w))))) ∧
  GameState.load slot
    (outcome_world (GameState.deleteSave slot
       (outcome_world (GameState.save state slot w)))) =
  Resolved None
    (outcome_world (GameState.deleteSave slot
       (outcome_world (GameState.save state slot w)))).
Proof.
  unfold GameState.load, GameState.save, GameState.deleteSave, modify_world.
  destruct w; cbn -[insert delete String.app]. split_and!.
  - by rewrite lookup_insert_eq.
  - intros other Hne. rewrite lookup_insert_ne; [done|].
    intros Heq%slot_key_inj. congruence.
  - intros newer. by rewrite lookup_insert_eq.
  - by rewrite lookup_delete_eq.
Qed.

(** X15 at the slots 'current' and 'other'. *)
Lemma save_load_round_trip_witness :
  "other" ≠ "current" ∧
  GameState.load "other"
    (outcome_world (GameState.save success_game "current" fresh_world)) =
  Resolved (localStorage fresh_world !! (GameState.STORAGE_PREFIX +:+ "other"))
           (outcome_world (GameState.save success_game "current" fresh_world)).
Proof.
  assert ("other" ≠ "current") as H by discriminate.
  split; [exact H|].
  exact (proj1 (proj2 (save_load_round_trip success_game "current" fresh_world))
           "other" H).
Defined.

(** X16. For [min <= max], [clamp] returns a value of [min, max]: the value
    itself when it is inside, [min] below, [max] above; clamping twice is
    clamping once, and a larger value never clamps lower. *)
Theorem clamp_saturates value min max :
  min ≤ max →
  min ≤ GameState.clamp value min max ≤ max ∧
  (min ≤ value ≤ max → GameState.clamp value min max = value) ∧
  (value < min → GameState.clamp value min max = min) ∧
  (max < value → GameState.clamp value min max = max) ∧
  GameState.clamp (GameState.clamp value min max) min max = GameState.clamp value min max ∧
  (∀ value', value ≤ value' →
             GameState.clamp value min max ≤ GameState.clamp value' min max).
Proof. unfold GameState.clamp. intros Hle. split_and!; intros; lia. Qed.

(** X16 at the three values of the influence test. *)
Lemma clamp_saturates_witness :
  0 ≤ 500 ∧
  GameState.clamp 999 0 500 = 500 ∧ GameState.clamp (-50) 0 500 = 0 ∧
  GameState.clamp 250 0 500 = 250.
Proof.
  assert (0 ≤ 500) as H by lia.
  pose proof (clamp_saturates 999 0 500 H) as (_ & _ & _ & H1 & _).
  pose proof (clamp_saturates (-50) 0 500 H) as (_ & _ & H2 & _).
  pose proof (clamp_saturates 250 0 500 H) as (_ & H3 & _).
  split; [exact H|]. split; [apply H1; lia|]. split; [apply H2; lia|apply H3; lia].
Defined.

(** X17. There is a bonus die exactly from 50 influence on; it is always a die
    of [DIE_MAX]; its maximum is at most 20, is 20 from 300 influence on,
    and never shrinks as the influence grows. *)
Theorem influence_die_tiers :
  (∀ influence, App.getInfluenceDie influence = None ↔ influence < 50) ∧
  (∀ influence die,
     App.getInfluenceDie influence = Some die → is_Some (Dice.DIE_MAX !! die)) ∧
  (∀ influence, 0 ≤ bonus_die_max influence ≤ 20) ∧
  (∀ influence, 300 ≤ influence → bonus_die_max influence = 20) ∧
  (∀ a b, a ≤ b → bonus_die_max a ≤ bonus_die_max b).
Proof.
  split_and!.
  - apply getInfluenceDie_None.
  - apply getInfluenceDie_known.
  - intros i. unfold bonus_die_max, App.getInfluenceDie.
    repeat case_decide; vm_compute; by split.
  - intros i Hi. unfold bonus_die_max, App.getInfluenceDie.
    by rewrite decide_True by lia.
  - intros a b Hab. unfold bonus_die_max, App.getInfluenceDie.
    repeat case_decide; try lia; by vm_compute.
Qed.

(** X17 at 99 and 100 influence. *)
Lemma influence_die_tiers_witness :
  99 ≤ 100 ∧ bonus_die_max 99 ≤ bonus_die_max 100 ∧
  App.getInfluenceDie 100 = Some "d6" ∧ is_Some (Dice.DIE_MAX !! "d6").
Proof.
  assert (99 ≤ 100) as H by lia.
  assert (App.getInfluenceDie 100 = Some "d6") as H2 by reflexivity.
  split; [exact H|].
  split; [exact (proj2 (proj2 (proj2 (proj2 influence_die_tiers))) 99 100 H)|].
  split; [exact H2|].
  exact (proj1 (proj2 influence_die_tiers) 100 "d6" H2).
Defined.

(** [Math.max] is one of its arguments and no smaller than any. *)
Lemma Math_max_spec x xs :
  (∀ y, y ∈ x :: xs → y ≤ JS.Math_max x xs) ∧ JS.Math_max x xs ∈ x :: xs.
Proof.
  unfold JS.Math_max. revert x. induction xs as [|z xs IH]; intros x; cbn.
  - split; [|by left]. intros y ->%list_elem_of_singleton. done.
  - destruct (IH (Z.max x z)) as [Hle Hin]. split.
    + assert (Z.max x z ≤ foldl Z.max (Z.max x z) xs) as Hm by (apply Hle; by left).
      intros y Hy. set_unfold in Hy.
      destruct Hy as [->|[->|Hy]]; [lia|lia|].
      apply Hle. by right.
    + set_unfold in Hin. set_unfold. destruct Hin as [Hin|Hin]; [|by auto].
      rewrite Hin. lia.
Qed.

(** X18. [updateLeaderSkill] changes the leader skill only: to 0 without
    operatives, else to the value of one of the operatives, which no
    operative exceeds. *)
Theorem updateLeaderSkill_takes_the_best w gs :
  App_gameState w = Some gs →
  ∃ skill,
    App.updateLeaderSkill w =
      Resolved tt (set_App_gameState (Some (set_leaderSkillLevel skill gs)) w) ∧
    (operatives gs = [] → skill = 0) ∧
    (operatives gs ≠ [] → ∃ op, op ∈ operatives gs ∧ value op = skill) ∧
    (∀ op, op ∈ operatives gs → value op ≤ skill).
Proof.
  intros Hgs. unfold App.updateLeaderSkill, bind, App.getState. rewrite Hgs.
  destruct (operatives gs) as [|op ops] eqn:Hops.
  - exists 0. unfold App.modify_state, bind, App.the_state. rewrite Hgs.
    split; [done|]. split; [done|]. split; [done|]. intros op Hop. by set_unfold.
  - exists (JS.Math_max (value op) (value <$> ops)).
    unfold App.modify_state, bind, App.the_state. rewrite Hgs.
    split; [done|]. split; [done|].
    destruct (Math_max_spec (value op) (value <$> ops)) as [Hle Hin].
    split.
    + intros _. change (value op :: (value <$> ops)) with (value <$> (op :: ops)) in Hin.
      apply list_elem_of_fmap in Hin as (o & Ho & Hin). eauto.
    + intros o Ho. apply Hle.
      change (value op :: (value <$> ops)) with (value <$> (op :: ops)).
      by apply list_elem_of_fmap_2.
Qed.

(** X18 at the operatives 5, K and 8. *)
Lemma updateLeaderSkill_takes_the_best_witness :
  App_gameState three_operatives_world =
    Some (game_of_test 0 [] [five_of_hearts; mkCard "spades" "K" 13;
                             mkCard "diamonds" "8" 8]) ∧
  ∃ skill,
    App.updateLeaderSkill three_operatives_world =
      Resolved tt
        (set_App_gameState
           (Some (set_leaderSkillLevel skill
                    (game_of_test 0 [] [five_of_hearts; mkCard "spades" "K" 13;
                                        mkCard "diamonds" "8" 8])))
           three_operatives_world) ∧
    (operatives (game_of_test 0 [] [five_of_hearts; mkCard "spades" "K" 13;
                                    mkCard "diamonds" "8" 8]) = [] → skill = 0) ∧
    (operatives (game_of_test 0 [] [five_of_hearts; mkCard "spades" "K" 13;
                                    mkCard "diamonds" "8" 8]) ≠ [] →
     ∃ op, op ∈ operatives (game_of_test 0 [] [five_of_hearts; mkCard "spades" "K" 13;
                                               mkCard "diamonds" "8" 8]) ∧
           value op = skill) ∧
    (∀ op, op ∈ operatives (game_of_test 0 [] [five_of_hearts; mkCard "spades" "K" 13;
                                               mkCard "diamonds" "8" 8]) →
           value op ≤ skill).
Proof.
  assert (App_gameState three_operatives_world =
          Some (game_of_test 0 [] [five_of_hearts; mkCard "spades" "K" 13;
                                   mkCard "diamonds" "8" 8])) as H by reflexivity.
  split; [exact H|].
  exact (updateLeaderSkill_takes_the_best three_operatives_world _ H).
Defined.

(** [continueGame]: nothing without a save; with one, the saved state, the
    providers of its input mode, and the game screen. *)
Lemma continueGame_world w :
  App.continueGame w =
    Resolved tt
      match localStorage w !! current_slot with
      | None => w
      | Some state =>
          {| Dice_provider := dice_provider_for (dice (inputMode state)) (player w);
             Deck_provider := deck_provider_for (cards (inputMode state)) (player w);
             App_activeScreen := Some "game";
             App_gameState := Some state;
             localStorage := localStorage w;
             player := player w;
             entropy := entropy w;
             randomCalls := randomCalls w;
             diceRequests := diceRequests w;
             cardRequests := cardRequests w |}
      end.
Proof.
  unfold App.continueGame. unfold bind at 1. unfold GameState.load.
  change (GameState.STORAGE_PREFIX +:+ "current") with current_slot.
  destruct (localStorage w !! current_slot) as [state|]; [|done].
  unfold bind, modify_world, App.syncInputProviders, App.getState, get_world,
    Dice.setProvider, Deck.setProvider, App.showScreen, modify_world,
    dice_provider_for, deck_provider_for.
  destruct w; cbn -[insert]. by repeat case_decide.
Qed.

(** X19. [continueGame] does nothing when the slot 'current' is empty; otherwise
    the game state becomes the saved state, the dice and deck providers
    are the modals exactly where the saved input mode says physical, the
    screen is the game screen, and the store is untouched. *)
Theorem continueGame_restores_the_save w :
  App.continueGame w =
    Resolved tt
      match localStorage w !! current_slot with
      | None => w
      | Some state =>
          {| Dice_provider := dice_provider_for (dice (inputMode state)) (player w);
             Deck_provider := deck_provider_for (cards (inputMode state)) (player w);
             App_activeScreen := Some "game";
             App_gameState := Some state;
             localStorage := localStorage w;
             player := player w;
             entropy := entropy w;
             randomCalls := randomCalls w;
             diceRequests := diceRequests w;
             cardRequests := cardRequests w |}
      end.
Proof. apply continueGame_world. Qed.

(** X20. [beginGame] resolves with a game of turn 1 with no resources, the
    selections of the page, a reordering of the fresh deck and nothing
    else in play, the providers of the selected input modes, the state
    saved and the game screen shown; [continueGame] right after leaves
    that world as it is. *)
Theorem beginGame_starts_a_fresh_game w0 resistance regime diceSelect cardsSelect :
  ∃ deck,
    deck ≡ₚ Deck.createDeck ∧
    App.beginGame resistance regime diceSelect cardsSelect w0 =
      Resolved tt (begun_world w0 resistance regime diceSelect cardsSelect deck) ∧
    App.continueGame (begun_world w0 resistance regime diceSelect cardsSelect deck) =
      Resolved tt (begun_world w0 resistance regime diceSelect cardsSelect deck).
Proof.
  destruct (beginGame_world w0 resistance regime diceSelect cardsSelect)
    as (deck & Hperm & Hrun).
  exists deck. split; [done|]. split; [done|].
  rewrite continueGame_world. unfold begun_world.
  cbn [localStorage]. by rewrite lookup_insert_eq.
Qed.

(** X21. After a rolled [attemptRecruit] or a [drawToPool] resolves, the slot
    'current' holds the game state; a refused attempt logs its entry
    without saving, so the store is what it was. *)
Theorem saved_game_follows_play w gs :
  App_gameState w = Some gs →
  (∀ poolIndex success w',
     App.attemptRecruit poolIndex w = Resolved (App.Rolled success) w' →
     localStorage w' !! current_slot = App_gameState w') ∧
  (∀ count w',
     App.drawToPool count w = Resolved tt w' →
     localStorage w' !! current_slot = App_gameState w') ∧
  (∀ poolIndex w',
     App.attemptRecruit poolIndex w = Resolved App.NoRecruiter w' →
     localStorage w' = localStorage w ∧
     ∃ entry, App_gameState w' = Some (logged entry gs)).
Proof.
  intros Hgs. split_and!.
  - intros poolIndex success w' Hrun.
    destruct (JS.array_get (recruitPool gs) poolIndex) as [c|] eqn:Hc.
    2: { by rewrite (attemptRecruit_no_card _ _ _ Hgs Hc) in Hrun. }
    destruct (decide (length (operatives gs) = 0%nat ∧ leaderSkillLevel gs = 0))
      as [Hnone|Hsome].
    { by rewrite (attemptRecruit_no_recruiter _ _ _ _ Hgs Hc Hnone) in Hrun. }
    destruct (attemptRecruit_rolled _ _ _ _ Hgs Hc Hsome)
      as (w2 & bonus & _ & _ & Hcases).
    destruct Hcases as [([E|[msg E]] & _)|(tot & text & E & Hgs' & Hls)];
      [congruence..|].
    cbv zeta in E, Hgs', Hls. rewrite E in Hrun. injection Hrun as _ <-.
    by rewrite Hls, Hgs', lookup_insert_eq.
  - intros count w' Hrun.
    destruct (draw_cases (recruitDeck gs) count w) as [(drawn & deck' & Hdraw)|Hdraw].
    + destruct (drawToPool_resolved _ _ _ _ _ _ Hgs Hdraw) as (entries & _ & _ & E).
      rewrite E in Hrun. injection Hrun as <-.
      destruct w; cbn -[insert]. by rewrite lookup_insert_eq.
    + unfold App.drawToPool, bind, App.getState in Hrun. by rewrite Hgs, Hdraw in Hrun.
  - intros poolIndex w' Hrun.
    destruct (JS.array_get (recruitPool gs) poolIndex) as [c|] eqn:Hc.
    2: { by rewrite (attemptRecruit_no_card _ _ _ Hgs Hc) in Hrun. }
    destruct (decide (length (operatives gs) = 0%nat ∧ leaderSkillLevel gs = 0))
      as [Hnone|Hsome].
    { rewrite (attemptRecruit_no_recruiter _ _ _ _ Hgs Hc Hnone) in Hrun.
      injection Hrun as <-. destruct w; cbn. eauto. }
    destruct (attemptRecruit_rolled _ _ _ _ Hgs Hc Hsome)
      as (w2 & bonus & _ & _ & Hcases).
    destruct Hcases as [([E|[msg E]] & _)|(tot & text & E & _)]; congruence.
Qed.

(** X21 at the successful test. *)
Lemma saved_game_follows_play_witness :
  App_gameState success_world = Some success_game ∧
  App.attemptRecruit 0 success_world =
    Resolved (App.Rolled true) (outcome_world (App.attemptRecruit 0 success_world)) ∧
  localStorage (outcome_world (App.attemptRecruit 0 success_world)) !! current_slot =
    App_gameState (outcome_world (App.attemptRecruit 0 success_world)).
Proof.
  assert (App_gameState success_world = Some success_game) as H1 by reflexivity.
  assert (App.attemptRecruit 0 success_world =
          Resolved (App.Rolled true) (outcome_world (App.attemptRecruit 0 success_world)))
    as H2 by (vm_compute; reflexivity).
  split; [exact H1|]. split; [exact H2|].
  exact (proj1 (saved_game_follows_play success_world success_game H1) 0 true _ H2).
Defined.

(** The shape of the worlds in play, whatever the input modes: a game state
    without operative, leader skill or initiate. *)
Lemma in_play_shape w :
  in_play w →
  ∃ gs, App_gameState w = Some gs ∧
        operatives gs = [] ∧ leaderSkillLevel gs = 0 ∧ initiates gs = [].
Proof.
  induction 1 as [w0 res reg dsel csel
                 |w count _ (gs & Hgs & Hops & Hskill & Hini)
                 |w poolIndex _ (gs & Hgs & Hops & Hskill & Hini)].
  - destruct (beginGame_world w0 res reg dsel csel) as (deck & _ & ->).
    cbn. eexists. by split.
  - destruct (draw_cases (recruitDeck gs) count w) as [(drawn & deck' & Hdraw)|Hdraw].
    + destruct (drawToPool_resolved _ _ _ _ _ _ Hgs Hdraw) as (entries & _ & _ & ->).
      destruct w as [dp kp scr g ls pl en rc dr cr].
      destruct gs as [? ? ? ? ? ? deck pool ini ops det skill ? ? ? ? ? ? ?].
      cbn -[insert] in *. eexists. by split.
    + unfold App.drawToPool, bind, App.getState. rewrite Hgs, Hdraw.
      destruct w; cbn in *. by exists gs.
  - destruct (JS.array_get (recruitPool gs) poolIndex) as [c|] eqn:Hc.
    2: { rewrite (attemptRecruit_no_card _ _ _ Hgs Hc). cbn. by exists gs. }
    rewrite (attemptRecruit_no_recruiter _ _ _ _ Hgs Hc) by (by rewrite Hops).
    destruct w as [dp kp scr g ls pl en rc dr cr].
    destruct gs as [? ? ? ? ? ? deck pool ini ops det skill ? ? ? ? ? ? ?].
    cbn in *. eexists. by split.
Qed.

(** The worlds of a game with digital cards are worlds in play. *)
Lemma reachable_in_play w : reachable w → in_play w.
Proof.
  induction 1 as [w0 res reg dsel csel _|w count _ IH|w poolIndex _ IH].
  - exact (play_begin w0 res reg dsel csel).
  - exact (play_draw w count IH).
  - exact (play_recruit w poolIndex IH).
Qed.

(** X5. In every world reachable from [beginGame] by [drawToPool] and
    [attemptRecruit], whatever the input modes, there is no operative, no
    leader skill and no initiate, and every call of [attemptRecruit] either
    finds no card or is refused for want of a recruiter, without a die
    being requested. *)
Theorem reachable_game_never_rolls w :
  in_play w →
  (∃ gs, App_gameState w = Some gs ∧ operatives gs = [] ∧ leaderSkillLevel gs = 0 ∧
         initiates gs = []) ∧
  ∀ poolIndex,
    App.attemptRecruit poolIndex w = Resolved App.NoTarget w ∨
    ∃ w', App.attemptRecruit poolIndex w = Resolved App.NoRecruiter w' ∧
          diceRequests w' = diceRequests w.
Proof.
  intros (gs & Hgs & Hops & Hskill & Hini)%in_play_shape.
  split; [by exists gs|]. intros poolIndex.
  destruct (JS.array_get (recruitPool gs) poolIndex) as [c|] eqn:Hc.
  - right. rewrite (attemptRecruit_no_recruiter _ _ _ _ Hgs Hc) by (by rewrite Hops).
    eexists. split; [done|]. by destruct w.
  - left. by apply attemptRecruit_no_card with gs.
Qed.

(** X5 at a game with physical dice and cards. *)
Lemma reachable_game_never_rolls_witness :
  in_play played_physical_world ∧
  (∃ gs, App_gameState played_physical_world = Some gs ∧ operatives gs = [] ∧
         leaderSkillLevel gs = 0 ∧ initiates gs = []) ∧
  ∀ poolIndex,
    App.attemptRecruit poolIndex played_physical_world
      = Resolved App.NoTarget played_physical_world ∨
    ∃ w', App.attemptRecruit poolIndex played_physical_world
            = Resolved App.NoRecruiter w' ∧
          diceRequests w' = diceRequests played_physical_world.
Proof.
  assert (in_play played_physical_world) as H.
  { exact (play_recruit _ 1 (play_draw _ 3
             (play_begin fresh_world [] [] (Some "physical") (Some "physical")))). }
  split; [exact H|]. exact (reachable_game_never_rolls played_physical_world H).
Defined.
